(** * AcademicChain: the employer-side verification pipeline

    A shallow embedding of the component of [src/pages/EmployerVerifier.tsx]:
    its handlers [runVerification], [handleVcInputChange], [resetState] and
    [handleFileImport], and what it renders ([getStatusPill], [getStepIcon],
    the Verify button, the step list and the details block), with the
    properties of the ordered step log and of the verdict it publishes.

    The component is a React function component: five state cells
    ([vcInput], [vc], [status], [steps], [isLoading]) and an [async] handler
    that calls four synchronous helpers ([JSON.parse], [verifyVCSignature],
    [canonicalizeVC], [computeCredentialHash]) and awaits two registry
    operations ([getController], [isRevoked]).  None of the six is defined in
    the file; they are the environment of the embedding. *)

From Stdlib Require Import List String Ascii Bool Arith Lia PrimFloat.
Import ListNotations.
Open Scope string_scope.

Set Implicit Arguments.
Set Warnings "-register-all".

(** ** Data model *)

(** [type VerificationStatus = 'idle' | 'verifying' | 'valid' | 'invalid' |
    'revoked' | 'error'] *)
Inductive VerificationStatus : Type :=
| Idle | Verifying | Valid | Invalid | Revoked | Error.

(** The [status] field of a [VerificationStep]:
    ['pending' | 'success' | 'failure' | 'warning'] *)
Inductive StepStatus : Type :=
| Pending | Success | Failure | Warning.

(** [interface VerificationStep { name; status; message }] *)
Record VerificationStep : Type := mkStep {
  name : string;
  status : StepStatus;
  message : string
}.

(** What [JSON.parse] can return.  A number is an IEEE 754 double; an object
    lists its own enumerable properties in property order. *)
Inductive Json : Type :=
| JNull
| JBool (b : bool)
| JNum (f : float)
| JStr (s : string)
| JArr (items : list Json)
| JObj (props : list (string * Json)).

(** A JavaScript value that may be [undefined] (the result of reading a
    property that is not there). *)
Definition JsVal : Type := option Json.

(** A thrown value (the reason of a rejected promise, for an awaited
    call), by what reading its [message] gives, which is all the handler
    does with one (line 123): an [Error], or any other value whose
    [message] renders as [msg]; a value other than [null] and [undefined]
    that has no [message]; [null] or [undefined], of which no property can
    be read. *)
Inductive Thrown : Type :=
| ErrorObj (msg : string)
| NonError
| Nullish.

(** The result of [verifyVCSignature]:
    [{ valid, reason, recoveredAddress? }]. *)
Record SigResult : Type := mkSig {
  valid : bool;
  reason : string;
  recoveredAddress : option string
}.

(** Step objects live in the JavaScript heap and are shared by reference:
    [verificationSteps] and every array handed to [setSteps] hold references
    to the same objects. *)
Definition loc : Type := nat.
Definition Heap : Type := loc -> VerificationStep.

Definition write (h : Heap) (l : loc) (s : VerificationStep) : Heap :=
  fun l' => if Nat.eqb l' l then s else h l'.

(** The five [useState] cells of the component. *)
Module UI.
Record State : Type := mk {
  vcInput : string;
  vc : Json;
  status : VerificationStatus;
  steps : list loc;
  isLoading : bool
}.
End UI.

Record World : Type := mkWorld {
  ui : UI.State;
  heap : Heap;
  next : loc
}.

(** What the page renders for the step list: each reference of [steps],
    dereferenced. *)
Definition shown (w : World) : list VerificationStep :=
  map (heap w) (UI.steps (ui w)).

(** ** JavaScript primitives used by the handler *)

(** A character of a [string] is a UTF-16 code unit below 256: Basic
    Latin and the Latin-1 Supplement.  The capital letters there are A-Z
    (65-90), U+00C0-U+00D6 (192-214) and U+00D8-U+00DE (216-222); the
    small letter of each is 32 further, and the Unicode lower-case mapping
    leaves every other code unit below 256 as it is. *)
Definition lowerUnit (c : ascii) : ascii :=
  let n := nat_of_ascii c in
  if (Nat.leb 65 n && Nat.leb n 90)
     || (Nat.leb 192 n && Nat.leb n 214)
     || (Nat.leb 216 n && Nat.leb n 222)
  then ascii_of_nat (n + 32)
  else c.

(** [String.prototype.toLowerCase]. *)
Fixpoint toLowerCase (s : string) : string :=
  match s with
  | EmptyString => EmptyString
  | String c r => String (lowerUnit c) (toLowerCase r)
  end.

(** [a.toLowerCase() === b?.toLowerCase()] where [b] may be [undefined]:
    a string is never [===] to [undefined]. *)
Definition sameIdentity (a : string) (b : option string) : bool :=
  match b with
  | Some b' => String.eqb (toLowerCase a) (toLowerCase b')
  | None => false
  end.

(** Every character there is. *)
Definition allUnits : list ascii := map ascii_of_nat (seq 0 256).

(** [`${x}`] for a value that is a string or [undefined]. *)
Definition render (x : option string) : string :=
  match x with
  | Some s => s
  | None => "undefined"
  end.

(** [(e as Error).message] inside a template literal: the message, or
    ["undefined"] for a value that has none; reading it of [null] or
    [undefined] throws a [TypeError]. *)
Definition messageOf (nullError : Thrown) (e : Thrown) : Thrown + string :=
  match e with
  | ErrorObj m => inr m
  | NonError => inr "undefined"
  | Nullish => inl nullError
  end.

(** [String.prototype.includes]. *)
Definition includes (hay needle : string) : bool :=
  match String.index 0 needle hay with
  | Some _ => true
  | None => false
  end.

(** Decimal property keys ["0"], ["1"], ... of an array or a string. *)
Definition digit (n : nat) : ascii := ascii_of_nat (48 + n).

Fixpoint decimal_aux (fuel n : nat) (acc : string) : string :=
  match fuel with
  | 0 => acc
  | S fuel' =>
      let acc' := String (digit (n mod 10)) acc in
      if Nat.ltb n 10 then acc' else decimal_aux fuel' (n / 10) acc'
  end.

Definition decimal (n : nat) : string := decimal_aux (S n) n EmptyString.

Fixpoint indexed (A : Type) (i : nat) (l : list A) : list (string * A) :=
  match l with
  | [] => []
  | x :: r => (decimal i, x) :: indexed (S i) r
  end.

Fixpoint chars (s : string) : list Json :=
  match s with
  | EmptyString => []
  | String c r => JStr (String c EmptyString) :: chars r
  end.

(** [v.key]: reading a property of [null] throws a [TypeError] (whose text
    is the engine's); an object yields its own property or [undefined];
    the key read here is never a property of a primitive, a string or an
    array. *)
Fixpoint lookup (key : string) (props : list (string * Json)) : JsVal :=
  match props with
  | [] => None
  | (k, v) :: r => if String.eqb k key then Some v else lookup key r
  end.

Definition getProp (nullError : Thrown) (v : Json) (key : string) : Thrown + JsVal :=
  match v with
  | JNull => inl nullError
  | JObj props => inr (lookup key props)
  | _ => inr None
  end.

(** [const { proof, ...vcWithoutProof } = parsedVc]: the own enumerable
    properties other than [proof], in order.  [null] throws; a number or a
    boolean has none; an array and a string have their indices. *)
Definition without (key : string) (props : list (string * Json)) : list (string * Json) :=
  filter (fun kv => negb (String.eqb (fst kv) key)) props.

Definition removeProof (nullError : Thrown) (v : Json) : Thrown + Json :=
  match v with
  | JNull => inl nullError
  | JObj props => inr (JObj (without "proof" props))
  | JArr items => inr (JObj (indexed 0 items))
  | JStr s => inr (JObj (indexed 0 (chars s)))
  | JBool _ | JNum _ => inr (JObj [])
  end.

(** ** The handler as a program

    The body of an [async] function is a tree of effects: updates of the
    state cells, writes to step objects, calls of the synchronous helpers
    and the two awaited registry operations.  A call is answered with a
    value or with the exception it threw (a rejected promise, for an awaited
    call).  [Throw] is an exception on its way out, [ReturnNow] the [return]
    statement. *)

Inductive Action : Type :=
| SetIsLoading (b : bool)
| SetStatus (s : VerificationStatus)
| SetVc (v : Json)
| SetSteps (l : list loc)
| SetStepStatus (l : loc) (s : StepStatus)
| SetStepMessage (l : loc) (m : string).

Inductive Prog (A : Type) : Type :=
| Ret (a : A)
| Throw (e : Thrown)
| ReturnNow
| Do (a : Action) (k : Prog A)
| NewStep (s : VerificationStep) (k : loc -> Prog A)
| CallParse (text : string) (k : Thrown + Json -> Prog A)
| CallVerify (v : Json) (k : Thrown + SigResult -> Prog A)
| CallCanonicalize (v : Json) (k : Thrown + string -> Prog A)
| CallHash (canonical : string) (k : Thrown + string -> Prog A)
| AwaitGetController (issuer : JsVal) (k : Thrown + string -> Prog A)
| AwaitIsRevoked (hash : string) (k : Thrown + bool -> Prog A).

Arguments Ret {A} a.
Arguments Throw {A} e.
Arguments ReturnNow {A}.

Fixpoint bind (A B : Type) (p : Prog A) (f : A -> Prog B) : Prog B :=
  match p with
  | Ret a => f a
  | Throw e => Throw e
  | ReturnNow => ReturnNow
  | Do a k => Do a (bind k f)
  | NewStep s k => NewStep s (fun l => bind (k l) f)
  | CallParse t k => CallParse t (fun r => bind (k r) f)
  | CallVerify v k => CallVerify v (fun r => bind (k r) f)
  | CallCanonicalize v k => CallCanonicalize v (fun r => bind (k r) f)
  | CallHash c k => CallHash c (fun r => bind (k r) f)
  | AwaitGetController i k => AwaitGetController i (fun r => bind (k r) f)
  | AwaitIsRevoked h k => AwaitIsRevoked h (fun r => bind (k r) f)
  end.

(** [try { p } catch (e) { handler e }]: an exception leaving [p] enters
    the handler; a [return] inside [p] leaves the function. *)
Fixpoint try_catch (A : Type) (p : Prog A) (handler : Thrown -> Prog A) : Prog A :=
  match p with
  | Ret a => Ret a
  | Throw e => handler e
  | ReturnNow => ReturnNow
  | Do a k => Do a (try_catch k handler)
  | NewStep s k => NewStep s (fun l => try_catch (k l) handler)
  | CallParse t k => CallParse t (fun r => try_catch (k r) handler)
  | CallVerify v k => CallVerify v (fun r => try_catch (k r) handler)
  | CallCanonicalize v k => CallCanonicalize v (fun r => try_catch (k r) handler)
  | CallHash c k => CallHash c (fun r => try_catch (k r) handler)
  | AwaitGetController i k => AwaitGetController i (fun r => try_catch (k r) handler)
  | AwaitIsRevoked h k => AwaitIsRevoked h (fun r => try_catch (k r) handler)
  end.

(** A call that yields its value or throws. *)
Definition settle (A : Type) (r : Thrown + A) : Prog A :=
  match r with
  | inl e => Throw e
  | inr a => Ret a
  end.

Declare Scope prog_scope.
Delimit Scope prog_scope with prog.
Bind Scope prog_scope with Prog.

Notation "x <- p ;; q" := (bind p (fun x => q))
  (at level 61, p at next level, right associativity) : prog_scope.
Notation "p ;; q" := (bind p (fun _ => q))
  (at level 61, right associativity) : prog_scope.
Notation "'try' p 'catch' x => h" := (try_catch p (fun x => h))
  (at level 60, p at level 61, x name, h at level 61) : prog_scope.

Definition act (a : Action) : Prog unit := Do a (Ret tt).
Definition setIsLoading (b : bool) : Prog unit := act (SetIsLoading b).
Definition setStatus (s : VerificationStatus) : Prog unit := act (SetStatus s).
Definition setVc (v : Json) : Prog unit := act (SetVc v).
Definition setSteps (l : list loc) : Prog unit := act (SetSteps l).
Definition setStepStatus (l : loc) (s : StepStatus) : Prog unit := act (SetStepStatus l s).
Definition setStepMessage (l : loc) (m : string) : Prog unit := act (SetStepMessage l m).
Definition new (s : VerificationStep) : Prog loc := NewStep s (fun l => Ret l).
Definition JSON_parse (text : string) : Prog Json := CallParse text (@settle _).
Definition verifyVCSignature (v : Json) : Prog SigResult := CallVerify v (@settle _).
Definition canonicalizeVC (v : Json) : Prog string := CallCanonicalize v (@settle _).
Definition computeCredentialHash (c : string) : Prog string := CallHash c (@settle _).
Definition getController (issuer : JsVal) : Prog string := AwaitGetController issuer (@settle _).
Definition isRevoked (hash : string) : Prog bool := AwaitIsRevoked hash (@settle _).

(** [Array.prototype.push] on a local array. *)
Definition push (a : list loc) (l : loc) : list loc := (a ++ [l])%list.

(** ** [runVerification] and [handleVcInputChange] *)

Section Handler.

(** The [TypeError] the engine throws when a property of [null] or of
    [undefined] is read, or [null] is destructured; its text is the
    engine's own.  One value stands for the three places that can throw
    one (lines 84, 105 and 123): a run shows the text of one of them at
    most. *)
Variable typeError : Thrown.

Local Open Scope prog_scope.

Definition parseFailed : VerificationStep :=
  {| name := "Parse JSON"; status := Failure;
     message := "Input is not valid JSON." |}.

Definition signatureStep (sigVerification : SigResult) : VerificationStep :=
  {| name := "Cryptographic Signature";
     status := if valid sigVerification then Success else Failure;
     message := reason sigVerification |}.

Definition controllerPending : VerificationStep :=
  {| name := "Issuer DID Control"; status := Pending;
     message := "Checking if issuer controls DID on-chain..." |}.

Definition revocationPending : VerificationStep :=
  {| name := "Revocation Status"; status := Pending;
     message := "Checking on-chain revocation list..." |}.

Definition controllerMatches (onChainController : string) : string :=
  "On-chain controller (" ++ onChainController
    ++ ") matches the credential signer.".

Definition controllerDiffers (onChainController : string)
    (signerAddress : option string) : string :=
  "On-chain controller (" ++ onChainController
    ++ ") does not match signer (" ++ render signerAddress
    ++ "). Credential may be valid but issuer DID is not registered or controller has changed.".

Definition controllerUnknown : string :=
  "Could not verify issuer DID controller on-chain. The DID may not be registered.".

Definition revokedMessage : string :=
  "This credential has been revoked by the issuer.".

Definition notRevokedMessage : string :=
  "Credential is not on the revocation list.".

Definition revocationUnknown (text : string) : string :=
  "Could not check revocation status: " ++ text.

(** Lines 47-129.  [verificationSteps] is a local array: [push] is
    rebinding, and [[...verificationSteps]] a copy of its references. *)
Definition runVerification (vcInput : string) : Prog unit :=
  setIsLoading true ;;
  setStatus Verifying ;;
  parsedVc <-
    (try (parsedVc <- JSON_parse vcInput ;;
          setVc parsedVc ;;
          Ret parsedVc)
     catch e =>
         (setStatus Error ;;
          s <- new parseFailed ;;
          setSteps [s] ;;
          setIsLoading false ;;
          ReturnNow)) ;;
  let verificationSteps := @nil loc in
  (* Step 1: Verify Signature *)
  sigVerification <- verifyVCSignature parsedVc ;;
  s <- new (signatureStep sigVerification) ;;
  let verificationSteps := push verificationSteps s in
  setSteps verificationSteps ;;
  (if negb (valid sigVerification)
   then setStatus Invalid ;; setIsLoading false ;; ReturnNow
   else Ret tt) ;;
  (* Step 2: Check On-Chain Controller *)
  controllerCheckStep <- new controllerPending ;;
  let verificationSteps := push verificationSteps controllerCheckStep in
  setSteps verificationSteps ;;
  (try (issuer <- settle (getProp typeError parsedVc "issuer") ;;
        onChainController <- getController issuer ;;
        let signerAddress := recoveredAddress sigVerification in
        if sameIdentity onChainController signerAddress
        then setStepStatus controllerCheckStep Success ;;
             setStepMessage controllerCheckStep
               (controllerMatches onChainController)
        else setStepStatus controllerCheckStep Warning ;;
             setStepMessage controllerCheckStep
               (controllerDiffers onChainController signerAddress))
   catch e =>
       (setStepStatus controllerCheckStep Warning ;;
        setStepMessage controllerCheckStep controllerUnknown)) ;;
  setSteps verificationSteps ;;
  (* Step 3: Check Revocation Status *)
  revocationStep <- new revocationPending ;;
  let verificationSteps := push verificationSteps revocationStep in
  setSteps verificationSteps ;;
  (try (vcWithoutProof <- settle (removeProof typeError parsedVc) ;;
        canonicalVC <- canonicalizeVC vcWithoutProof ;;
        hash <- computeCredentialHash canonicalVC ;;
        revoked <- isRevoked hash ;;
        if (revoked : bool)
        then setStepStatus revocationStep Failure ;;
             setStepMessage revocationStep revokedMessage ;;
             setSteps verificationSteps ;;
             setStatus Revoked ;;
             setIsLoading false ;;
             ReturnNow
        else setStepStatus revocationStep Success ;;
             setStepMessage revocationStep notRevokedMessage)
   catch e =>
       (setStepStatus revocationStep Warning ;;
        text <- settle (messageOf typeError e) ;;
        setStepMessage revocationStep (revocationUnknown text))) ;;
  setSteps verificationSteps ;;
  setStatus Valid ;;
  setIsLoading false.

End Handler.

(** Lines 22-31: [handleVcInputChange] stores the text and [resetState]
    clears [status], [steps] and [vc]; [isLoading] is left as it is. *)
Definition resetState (u : UI.State) : UI.State :=
  {| UI.vcInput := UI.vcInput u; UI.vc := JNull; UI.status := Idle;
     UI.steps := []; UI.isLoading := UI.isLoading u |}.

Definition handleVcInputChange (text : string) (u : UI.State) : UI.State :=
  resetState {| UI.vcInput := text; UI.vc := UI.vc u; UI.status := UI.status u;
                UI.steps := UI.steps u; UI.isLoading := UI.isLoading u |}.

(** Line 166: the Verify button is [disabled={isLoading || !vcInput}]. *)
Definition buttonDisabled (u : UI.State) : bool :=
  UI.isLoading u || match UI.vcInput u with EmptyString => true | _ => false end.

(** ** [handleFileImport] *)

(** Lines 33-45.  What the file input delivers: no file was chosen
    ([event.target.files?.[0]] is [undefined]); or a file whose reading
    never fires [onload]; or a file whose [onload] fires with a result
    that is a string, or is not one. *)
Inductive FileEvent : Type :=
| NoFile
| Unread
| Loaded (content : option string).

Definition handleFileImport (ev : FileEvent) (u : UI.State) : UI.State :=
  match ev with
  | Loaded (Some content) => handleVcInputChange content u
  | _ => u
  end.

(** What the user does to the input: types in the text area (line 163) or
    chooses a file (line 171). *)
Inductive InputEvent : Type :=
| Typed (text : string)
| Chose (file : FileEvent).

Definition handleInput (u : UI.State) (ev : InputEvent) : UI.State :=
  match ev with
  | Typed text => handleVcInputChange text u
  | Chose file => handleFileImport file u
  end.

(** The text an input event puts in the buffer, if it puts one. *)
Definition delivered (ev : InputEvent) : option string :=
  match ev with
  | Typed text => Some text
  | Chose (Loaded (Some content)) => Some content
  | Chose _ => None
  end.

(** ** What the page renders *)

(** Lines 131-140: [getStatusPill], by the class that colours the pill and
    its text.  The [default] branch is the one left for ['idle']. *)
Record Pill : Type := mkPill {
  pillColour : string;
  pillText : string
}.

Definition getStatusPill (s : VerificationStatus) : Pill :=
  match s with
  | Valid => mkPill "bg-green-600" "VALID"
  | Invalid => mkPill "bg-red-600" "INVALID SIGNATURE"
  | Revoked => mkPill "bg-yellow-600" "REVOKED"
  | Error => mkPill "bg-red-700" "ERROR"
  | Verifying => mkPill "bg-blue-600" "VERIFYING..."
  | Idle => mkPill "bg-gray-400" "Awaiting Verification"
  end.

(** Lines 142-149: [getStepIcon]; the [default] branch, the spinner, is
    the one left for ['pending']. *)
Inductive Icon : Type :=
| CheckCircle | CrossCircle | WarningTriangle | Spinner.

Definition getStepIcon (s : StepStatus) : Icon :=
  match s with
  | Success => CheckCircle
  | Failure => CrossCircle
  | Warning => WarningTriangle
  | Pending => Spinner
  end.

(** Line 167: [{isLoading ? 'Verifying...' : 'Verify Credential'}]. *)
Definition buttonLabel (u : UI.State) : string :=
  if UI.isLoading u then "Verifying..." else "Verify Credential".

(** Truthiness of a parsed value: [null], [false], [0], [-0], [NaN] and
    the empty string are falsy. *)
Definition truthy (v : Json) : bool :=
  match v with
  | JNull => false
  | JBool b => b
  | JNum f => negb (PrimFloat.eqb f PrimFloat.zero) && PrimFloat.eqb f f
  | JStr EmptyString => false
  | _ => true
  end.

(** [x.key] where [x] may be [undefined]: reading a property of
    [undefined] throws as reading one of [null] does. *)
Definition readProp (nullError : Thrown) (x : JsVal) (key : string) : Thrown + JsVal :=
  match x with
  | None => inl nullError
  | Some v => getProp nullError v key
  end.

Fixpoint readPath (nullError : Thrown) (x : JsVal) (keys : list string) : Thrown + JsVal :=
  match keys with
  | [] => inr x
  | key :: rest =>
      match readProp nullError x key with
      | inl e => inl e
      | inr y => readPath nullError y rest
      end
  end.

Fixpoint readAll (nullError : Thrown) (v : Json) (paths : list (list string)) : Thrown + list JsVal :=
  match paths with
  | [] => inr []
  | p :: rest =>
      match readPath nullError (Some v) p with
      | inl e => inl e
      | inr x =>
          match readAll nullError v rest with
          | inl e => inl e
          | inr xs => inr (x :: xs)
          end
      end
  end.

(** Lines 198-201: the four expressions of the details block, in order. *)
Definition detailPaths : list (list string) :=
  [ ["credentialSubject"; "degree"; "name"];
    ["credentialSubject"; "degree"; "major"];
    ["credentialSubject"; "university"];
    ["credentialSubject"; "id"] ].

(** Lines 194-204: [{status === 'valid' && vc && (...)}].  The block is
    there when [status] is ['valid'] and [vc] is truthy; evaluating it
    reads the four values, and a read may throw. *)
Definition detailsShown (u : UI.State) : bool :=
  match UI.status u with
  | Valid => truthy (UI.vc u)
  | _ => false
  end.

Definition details (nullError : Thrown) (u : UI.State) : Thrown + option (list JsVal) :=
  if detailsShown u
  then match readAll nullError (UI.vc u) detailPaths with
       | inl e => inl e
       | inr values => inr (Some values)
       end
  else inr None.

(** Lines 183-191: one row per step: its icon, its name and its message. *)
Definition stepRow (s : VerificationStep) : Icon * string * string :=
  (getStepIcon (status s), name s, message s).

(** Lines 151-208: what the component returns, from the state cells. *)
Record Page : Type := mkPage {
  textArea : string;
  verifyDisabled : bool;
  verifyLabel : string;
  pill : Pill;
  rows : list (Icon * string * string);
  detailsBlock : Thrown + option (list JsVal)
}.

Definition page (nullError : Thrown) (w : World) : Page :=
  {| textArea := UI.vcInput (ui w);
     verifyDisabled := buttonDisabled (ui w);
     verifyLabel := buttonLabel (ui w);
     pill := getStatusPill (UI.status (ui w));
     rows := map stepRow (shown w);
     detailsBlock := details nullError (ui w) |}.

(** ** Semantics *)

(** The environment of a run: what each helper and each registry operation
    answers.  [inl e] is a thrown exception (a rejected promise, for the two
    registry operations); of [getController] it is also a value that is
    not a string, on which line 86 throws inside the [try]. *)
Record Env : Type := mkEnv {
  env_parse : string -> Thrown + Json;
  env_verify : Json -> Thrown + SigResult;
  env_canonicalize : Json -> Thrown + string;
  env_hash : string -> Thrown + string;
  env_getController : JsVal -> Thrown + string;
  env_isRevoked : string -> Thrown + bool
}.

(** What an observer of a run sees, in order.  [Published refs view] is a
    call of [setSteps]: the references handed over and what they point to
    at that moment. *)
Inductive Event : Type :=
| Did (a : Action)
| Published (refs : list loc) (view : list VerificationStep)
| Parsed (text : string) (r : Thrown + Json)
| Verified (v : Json) (r : Thrown + SigResult)
| Canonicalized (v : Json) (r : Thrown + string)
| Hashed (canonical : string) (r : Thrown + string)
| ControllerAsked (issuer : JsVal) (r : Thrown + string)
| RevocationAsked (hash : string) (r : Thrown + bool).

(** How the [async] function ends: its promise is fulfilled (the body ran
    to its end or to a [return]) or rejected by an uncaught exception. *)
Inductive Completion : Type :=
| Fulfilled
| Rejected (e : Thrown).

Definition setUi (w : World) (u : UI.State) : World :=
  {| ui := u; heap := heap w; next := next w |}.

Definition apply_action (a : Action) (w : World) : World :=
  let u := ui w in
  match a with
  | SetIsLoading b =>
      setUi w {| UI.vcInput := UI.vcInput u; UI.vc := UI.vc u;
                 UI.status := UI.status u; UI.steps := UI.steps u;
                 UI.isLoading := b |}
  | SetStatus s =>
      setUi w {| UI.vcInput := UI.vcInput u; UI.vc := UI.vc u;
                 UI.status := s; UI.steps := UI.steps u;
                 UI.isLoading := UI.isLoading u |}
  | SetVc v =>
      setUi w {| UI.vcInput := UI.vcInput u; UI.vc := v;
                 UI.status := UI.status u; UI.steps := UI.steps u;
                 UI.isLoading := UI.isLoading u |}
  | SetSteps l =>
      setUi w {| UI.vcInput := UI.vcInput u; UI.vc := UI.vc u;
                 UI.status := UI.status u; UI.steps := l;
                 UI.isLoading := UI.isLoading u |}
  | SetStepStatus l s =>
      {| ui := u; next := next w;
         heap := write (heap w) l
                   {| name := name (heap w l); status := s;
                      message := message (heap w l) |} |}
  | SetStepMessage l m =>
      {| ui := u; next := next w;
         heap := write (heap w) l
                   {| name := name (heap w l); status := status (heap w l);
                      message := m |} |}
  end.

Definition event_of (a : Action) (w : World) : Event :=
  match a with
  | SetSteps l => Published l (map (heap w) l)
  | _ => Did a
  end.

(** An object literal: a fresh object in the heap. *)
Definition alloc (s : VerificationStep) (w : World) : World :=
  {| ui := ui w; heap := write (heap w) (next w) s; next := S (next w) |}.

Record Outcome : Type := mkOutcome {
  final : World;
  completion : Completion;
  trace : list Event
}.

Definition emit (ev : Event) (o : Outcome) : Outcome :=
  {| final := final o; completion := completion o; trace := ev :: trace o |}.

(** One run from start to end, every call answered by the environment. *)
Fixpoint run (A : Type) (E : Env) (p : Prog A) (w : World) : Outcome :=
  match p with
  | Ret _ | ReturnNow => mkOutcome w Fulfilled []
  | Throw e => mkOutcome w (Rejected e) []
  | Do a k => emit (event_of a w) (run E k (apply_action a w))
  | NewStep s k => run E (k (next w)) (alloc s w)
  | CallParse t k =>
      let r := env_parse E t in emit (Parsed t r) (run E (k r) w)
  | CallVerify v k =>
      let r := env_verify E v in emit (Verified v r) (run E (k r) w)
  | CallCanonicalize v k =>
      let r := env_canonicalize E v in emit (Canonicalized v r) (run E (k r) w)
  | CallHash c k =>
      let r := env_hash E c in emit (Hashed c r) (run E (k r) w)
  | AwaitGetController i k =>
      let r := env_getController E i in emit (ControllerAsked i r) (run E (k r) w)
  | AwaitIsRevoked h k =>
      let r := env_isRevoked E h in emit (RevocationAsked h r) (run E (k r) w)
  end.

(** The same run up to its next [await]: the synchronous helpers are
    answered, an awaited call suspends the function. *)
Inductive Paused : Type :=
| Settled (c : Completion)
| AtGetController (issuer : JsVal) (k : Thrown + string -> Prog unit)
| AtIsRevoked (hash : string) (k : Thrown + bool -> Prog unit).

Record Slice : Type := mkSlice {
  reached : World;
  paused : Paused;
  seen : list Event
}.

Definition note (ev : Event) (s : Slice) : Slice :=
  {| reached := reached s; paused := paused s; seen := ev :: seen s |}.

Fixpoint exec (E : Env) (p : Prog unit) (w : World) : Slice :=
  match p with
  | Ret _ | ReturnNow => mkSlice w (Settled Fulfilled) []
  | Throw e => mkSlice w (Settled (Rejected e)) []
  | Do a k => note (event_of a w) (exec E k (apply_action a w))
  | NewStep s k => exec E (k (next w)) (alloc s w)
  | CallParse t k =>
      let r := env_parse E t in note (Parsed t r) (exec E (k r) w)
  | CallVerify v k =>
      let r := env_verify E v in note (Verified v r) (exec E (k r) w)
  | CallCanonicalize v k =>
      let r := env_canonicalize E v in note (Canonicalized v r) (exec E (k r) w)
  | CallHash c k =>
      let r := env_hash E c in note (Hashed c r) (exec E (k r) w)
  | AwaitGetController i k => mkSlice w (AtGetController i k) []
  | AwaitIsRevoked h k => mkSlice w (AtIsRevoked h k) []
  end.

(** ** Observations on a run *)

(** The verdict the page shows and the step log it renders when the run
    has ended. *)
Definition verdict (o : Outcome) : VerificationStatus := UI.status (ui (final o)).
Definition stepLog (o : Outcome) : list VerificationStep := shown (final o).

(** A call of the registry (a network call). *)
Definition registryCall (ev : Event) : bool :=
  match ev with
  | ControllerAsked _ _ | RevocationAsked _ _ => true
  | _ => false
  end.

(** A call of one of the verification helpers or of the registry: anything
    past parsing. *)
Definition verificationCall (ev : Event) : bool :=
  match ev with
  | Verified _ _ | Canonicalized _ _ | Hashed _ _
  | ControllerAsked _ _ | RevocationAsked _ _ => true
  | _ => false
  end.

(** The arrays handed to [setSteps], oldest first, each with what it
    showed when it was handed over. *)
Fixpoint snapshots (t : list Event) : list (list loc * list VerificationStep) :=
  match t with
  | [] => []
  | Published refs view :: r => (refs, view) :: snapshots r
  | _ :: r => snapshots r
  end.

Definition prefix (A : Type) (a b : list A) : Prop := exists c, b = (a ++ c)%list.

(** Each list extends the one before it. *)
Fixpoint growing (A : Type) (l : list (list A)) : Prop :=
  match l with
  | a :: (b :: _) as r => prefix a b /\ growing r
  | _ => True
  end.

Definition stepNames : list string :=
  ["Cryptographic Signature"; "Issuer DID Control"; "Revocation Status"].

Definition endsPending (stepName : string) (view : list VerificationStep) : Prop :=
  exists front m, view = (front ++ [mkStep stepName Pending m])%list.

(** At each registry call, the snapshot published last ends with the
    pending placeholder of the step that makes the call. *)
Fixpoint announced (latest : list VerificationStep) (t : list Event) : Prop :=
  match t with
  | [] => True
  | Published _ view :: r => announced view r
  | ControllerAsked _ _ :: r =>
      endsPending "Issuer DID Control" latest /\ announced latest r
  | RevocationAsked _ _ :: r =>
      endsPending "Revocation Status" latest /\ announced latest r
  | _ :: r => announced latest r
  end.

Definition decided (s : VerificationStep) : Prop := status s <> Pending.

(** Case-insensitive comparison, as the specification words it, with no
    lower-casing: two identities are the same when they have the same
    length and, place by place, the same character or the capital and the
    small form of one letter. *)
Definition capitalOf (small capital : ascii) : bool :=
  let n := nat_of_ascii capital in
  Nat.eqb (nat_of_ascii small) (n + 32)
  && ((Nat.leb 65 n && Nat.leb n 90)
      || (Nat.leb 192 n && Nat.leb n 214)
      || (Nat.leb 216 n && Nat.leb n 222)).

Definition sameLetter (x y : ascii) : bool :=
  Ascii.eqb x y || capitalOf x y || capitalOf y x.

Fixpoint equalIgnoringCase (a b : string) : bool :=
  match a, b with
  | EmptyString, EmptyString => true
  | String x a', String y b' => sameLetter x y && equalIgnoringCase a' b'
  | _, _ => false
  end.

(** The same environment with another registry answer for the controller. *)
Definition withController (E : Env) (g : JsVal -> Thrown + string) : Env :=
  {| env_parse := env_parse E; env_verify := env_verify E;
     env_canonicalize := env_canonicalize E; env_hash := env_hash E;
     env_getController := g; env_isRevoked := env_isRevoked E |}.

(** The answer the revocation step works with (lines 105-108): the proof
    is stripped, the rest canonicalized, the canonical form hashed and the
    hash looked up; the first exception ends the block. *)
Definition revocationAnswer (te : Thrown) (E : Env) (v : Json) : Thrown + bool :=
  match removeProof te v with
  | inl e => inl e
  | inr body =>
      match env_canonicalize E body with
      | inl e => inl e
      | inr canonical =>
          match env_hash E canonical with
          | inl e => inl e
          | inr h => env_isRevoked E h
          end
      end
  end.

(** The answer the controller step works with (line 84): reading
    [parsedVc.issuer] may throw, then the registry is asked. *)
Definition controllerAnswer (te : Thrown) (E : Env) (v : Json) : Thrown + string :=
  match getProp te v "issuer" with
  | inl e => inl e
  | inr issuer => env_getController E issuer
  end.

(** What lines 85-96 leave in [controllerCheckStep]. *)
Definition controllerEnds (sg : SigResult) (r : Thrown + string) : VerificationStep :=
  match r with
  | inr c =>
      if sameIdentity c (recoveredAddress sg)
      then mkStep "Issuer DID Control" Success (controllerMatches c)
      else mkStep "Issuer DID Control" Warning
             (controllerDiffers c (recoveredAddress sg))
  | inl _ => mkStep "Issuer DID Control" Warning controllerUnknown
  end.

(** What lines 110-124 leave in [revocationStep]; when the message of the
    caught value cannot be read, line 122 has run and line 123 has not. *)
Definition revocationEnds (te : Thrown) (r : Thrown + bool) : VerificationStep :=
  match r with
  | inr true => mkStep "Revocation Status" Failure revokedMessage
  | inr false => mkStep "Revocation Status" Success notRevokedMessage
  | inl e =>
      match messageOf te e with
      | inr text => mkStep "Revocation Status" Warning (revocationUnknown text)
      | inl _ => mkStep "Revocation Status" Warning (message revocationPending)
      end
  end.

(** How the run ends after the revocation step, by the answer the step
    worked with: line 116, line 128, or the exception that leaves the
    [catch] of line 121. *)
Definition verdictAfter (te : Thrown) (r : Thrown + bool) : VerificationStatus :=
  match r with
  | inr true => Revoked
  | inr false => Valid
  | inl e =>
      match messageOf te e with
      | inr _ => Valid
      | inl _ => Verifying
      end
  end.

Definition completionAfter (te : Thrown) (r : Thrown + bool) : Completion :=
  match r with
  | inr _ => Fulfilled
  | inl e =>
      match messageOf te e with
      | inr _ => Fulfilled
      | inl e' => Rejected e'
      end
  end.

(** The values a run hands to [setStatus] and to [setIsLoading], in
    order. *)
Fixpoint statusWrites (t : list Event) : list VerificationStatus :=
  match t with
  | [] => []
  | Did (SetStatus s) :: r => s :: statusWrites r
  | _ :: r => statusWrites r
  end.

Fixpoint loadingWrites (t : list Event) : list bool :=
  match t with
  | [] => []
  | Did (SetIsLoading b) :: r => b :: loadingWrites r
  | _ :: r => loadingWrites r
  end.

(** The helpers and registry operations a run calls, in order. *)
Inductive Call : Type :=
| ParseCall | VerifyCall | ControllerCall
| CanonicalizeCall | HashCall | RevocationCall.

Fixpoint calls (t : list Event) : list Call :=
  match t with
  | [] => []
  | Parsed _ _ :: r => ParseCall :: calls r
  | Verified _ _ :: r => VerifyCall :: calls r
  | ControllerAsked _ _ :: r => ControllerCall :: calls r
  | Canonicalized _ _ :: r => CanonicalizeCall :: calls r
  | Hashed _ _ :: r => HashCall :: calls r
  | RevocationAsked _ _ :: r => RevocationCall :: calls r
  | _ :: r => calls r
  end.

Definition pipeline : list Call :=
  [ParseCall; VerifyCall; ControllerCall; CanonicalizeCall; HashCall; RevocationCall].

(** The text the last input event that delivered one has put in the
    buffer. *)
Fixpoint lastDelivered (evs : list InputEvent) (latest : option string) : option string :=
  match evs with
  | [] => latest
  | ev :: r =>
      lastDelivered r (match delivered ev with
                       | Some text => Some text
                       | None => latest
                       end)
  end.

Definition iconOf (row : Icon * string * string) : Icon := fst (fst row).

(** ** The mounted component: several runs, edits and settling promises *)

(** What can happen to the mounted component.  [Start] is a click on the
    Verify button; [Edit] is a change of the text area, or a file import
    that delivers a text; a promise settles for the run that awaits it. *)
Inductive Happening : Type :=
| Start
| Edit (text : string)
| ControllerSettles (id : nat) (r : Thrown + string)
| RevocationSettles (id : nat) (r : Thrown + bool).

Inductive Entry : Type :=
| Started (id : nat)
| Applied (id : nat) (ev : Event)
| Edited (text : string).

Record System : Type := mkSystem {
  world : World;
  inflight : list (nat * Paused);
  started : nat;
  history : list Entry
}.

(** [useState] initial values: [''], [null], ['idle'], [[]], [false]. *)
Definition mounted (h : Heap) (n : loc) : System :=
  {| world := {| ui := UI.mk EmptyString JNull Idle [] false;
                 heap := h; next := n |};
     inflight := []; started := 0; history := [] |}.

Definition suspend (id : nat) (p : Paused) (l : list (nat * Paused)) : list (nat * Paused) :=
  match p with
  | Settled _ => l
  | _ => (l ++ [(id, p)])%list
  end.

Definition forget (id : nat) (l : list (nat * Paused)) : list (nat * Paused) :=
  filter (fun e => negb (Nat.eqb (fst e) id)) l.

Fixpoint awaiting (id : nat) (l : list (nat * Paused)) : option Paused :=
  match l with
  | [] => None
  | (i, p) :: r => if Nat.eqb i id then Some p else awaiting id r
  end.

Definition resume (id : nat) (ev : Event) (sl : Slice) (s : System) : System :=
  {| world := reached sl;
     inflight := suspend id (paused sl) (forget id (inflight s));
     started := started s;
     history := (history s ++ map (Applied id) (ev :: seen sl))%list |}.

(** [Start] is a click on the Verify button, the only caller of
    [runVerification] (line 166): it does nothing while the button is
    disabled. *)
Definition react (te : Thrown) (E : Env) (s : System)
    (h : Happening) : System :=
  match h with
  | Start =>
      if buttonDisabled (ui (world s)) then s
      else
        let id := started s in
        let sl := exec E (runVerification te (UI.vcInput (ui (world s)))) (world s) in
        {| world := reached sl;
           inflight := suspend id (paused sl) (inflight s);
           started := S id;
           history := (history s ++ Started id :: map (Applied id) (seen sl))%list |}
  | Edit text =>
      {| world := setUi (world s) (handleVcInputChange text (ui (world s)));
         inflight := inflight s;
         started := started s;
         history := (history s ++ [Edited text])%list |}
  | ControllerSettles id r =>
      match awaiting id (inflight s) with
      | Some (AtGetController issuer k) =>
          resume id (ControllerAsked issuer r) (exec E (k r) (world s)) s
      | _ => s
      end
  | RevocationSettles id r =>
      match awaiting id (inflight s) with
      | Some (AtIsRevoked hash k) =>
          resume id (RevocationAsked hash r) (exec E (k r) (world s)) s
      | _ => s
      end
  end.

Definition play (te : Thrown) (E : Env) (s : System)
    (schedule : list Happening) : System :=
  fold_left (react te E) schedule s.

(** A result of a run: a step log or a verdict handed to the page. *)
Definition result (ev : Event) : bool :=
  match ev with
  | Published _ _ | Did (SetStatus _) => true
  | _ => false
  end.

(** [stale n h]: some run applies a result in [h] after a newer run has
    started, [n] runs having started before [h]. *)
Fixpoint stale (n : nat) (h : list Entry) : bool :=
  match h with
  | [] => false
  | Started id :: r => stale (S id) r
  | Applied id ev :: r => (result ev && Nat.ltb (S id) n) || stale n r
  | Edited _ :: r => stale n r
  end.

Fixpoint runsAfter (n : nat) (h : list Entry) : nat :=
  match h with
  | [] => n
  | Started id :: r => runsAfter (S id) r
  | _ :: r => runsAfter n r
  end.

(** An [await] is reached only while [isLoading] is [true]. *)
Fixpoint awaitsLoading (A : Type) (loading : bool) (p : Prog A) : Prop :=
  match p with
  | Ret _ | Throw _ | ReturnNow => True
  | Do (SetIsLoading b) k => awaitsLoading b k
  | Do _ k => awaitsLoading loading k
  | NewStep _ k => forall l, awaitsLoading loading (k l)
  | CallParse _ k => forall r, awaitsLoading loading (k r)
  | CallVerify _ k => forall r, awaitsLoading loading (k r)
  | CallCanonicalize _ k => forall r, awaitsLoading loading (k r)
  | CallHash _ k => forall r, awaitsLoading loading (k r)
  | AwaitGetController _ k => loading = true /\ forall r, awaitsLoading true (k r)
  | AwaitIsRevoked _ k => loading = true /\ forall r, awaitsLoading true (k r)
  end.

Definition resumable (p : Paused) : Prop :=
  match p with
  | Settled _ => True
  | AtGetController _ k => forall r, awaitsLoading true (k r)
  | AtIsRevoked _ k => forall r, awaitsLoading true (k r)
  end.

(** What holds of the component while runs are started by the button: at
    most one run is in flight, it is the newest, and [isLoading] is [true]
    while it is. *)
Definition oneRun (s : System) : Prop :=
  match inflight s with
  | [] => True
  | [(id, p)] =>
      S id = started s /\ resumable p /\ UI.isLoading (ui (world s)) = true
  | _ => False
  end.

Definition coherent (s : System) : Prop :=
  oneRun s /\ stale 0 (history s) = false /\ runsAfter 0 (history s) = started s.

(** ** Sample environments *)

Definition blankHeap : Heap := fun _ => mkStep EmptyString Pending EmptyString.

Definition fresh : World :=
  {| ui := UI.mk "{}" JNull Idle [] false; heap := blankHeap; next := 0 |}.

Definition degree : Json :=
  JObj [("issuer", JStr "did:ethr:0xAbC1"); ("credentialSubject", JObj [("id", JStr "did:ethr:0x01")]);
        ("proof", JObj [("signature", JStr "0x5a")])].

(** A credential whose [proof] is neither its first nor its last
    property. *)
Definition transcript : Json :=
  JObj [("issuer", JStr "did:ethr:0xAbC1");
        ("proof", JObj [("signature", JStr "0x7c")]);
        ("credentialSubject", JObj [("id", JStr "did:ethr:0x02")])].

(** An environment of constant answers. *)
Definition answering (parsed : Thrown + Json) (checked : Thrown + SigResult)
    (canonical hashed controller : Thrown + string) (revoked : Thrown + bool) : Env :=
  {| env_parse := fun _ => parsed; env_verify := fun _ => checked;
     env_canonicalize := fun _ => canonical; env_hash := fun _ => hashed;
     env_getController := fun _ => controller; env_isRevoked := fun _ => revoked |}.

Definition signedBy (a : string) : SigResult :=
  {| valid := true; reason := "Signature is valid."; recoveredAddress := Some a |}.

Definition badSignature : SigResult :=
  {| valid := false; reason := "Signature does not match."; recoveredAddress := None |}.

Definition nullTypeError : Thrown :=
  ErrorObj "Cannot destructure property 'proof' of 'parsedVc' as it is null.".

Definition messageTypeError : Thrown :=
  ErrorObj "Cannot read properties of undefined (reading 'message')".

(** An environment in which one text parses, to a given value, and every
    verifier call gives the same answer. *)
Definition parsesOnly (text : string) (v : Json) (sg : SigResult) : Env :=
  {| env_parse := fun t => if String.eqb t text then inr v
                           else inl (ErrorObj "Unexpected token in JSON");
     env_verify := fun _ => inr sg;
     env_canonicalize := fun _ => inr "{canonical}";
     env_hash := fun c => inr ("keccak:" ++ c);
     env_getController := fun _ => inl NonError;
     env_isRevoked := fun _ => inl NonError |}.

(** * Properties *)

Arguments write : simpl never.
Arguments controllerMatches : simpl never.
Arguments controllerDiffers : simpl never.
Arguments revocationUnknown : simpl never.
Arguments includes : simpl never.

(** ** The heap *)

Lemma write_same (h : Heap) l s : write h l s l = s.
Proof. unfold write. now rewrite Nat.eqb_refl. Qed.

Lemma write_other (h : Heap) l s l' : l' <> l -> write h l s l' = h l'.
Proof. unfold write. intros H. apply Nat.eqb_neq in H. now rewrite H. Qed.

(** Reads through the writes of a run: the objects it allocates are at
    [next w], [S (next w)] and [S (S (next w))]. *)
Ltac heap_reads :=
  repeat (rewrite write_same in * || rewrite write_other in * by lia).

Ltac tidy := cbn in *; heap_reads; cbn in *.

(** Runs the handler up to the first call whose answer is not known. *)
Ltac forward :=
  unfold stepLog, verdict, shown, runVerification in *; tidy.

(** Uses a known answer and runs on. *)
Ltac answer H := rewrite H in *; tidy.

(** Splits on the answer of the next call, or on the next test. *)
Ltac branch :=
  match goal with
  | |- context [settle ?x] => destruct x eqn:?; tidy
  | H : context [settle ?x] |- _ => destruct x eqn:?; tidy
  | |- context [match ?x with _ => _ end] => destruct x eqn:?; tidy
  | H : context [match ?x with _ => _ end] |- _ => destruct x eqn:?; tidy
  end.

(** Finds an event in a trace that has been computed. *)
Ltac among H :=
  repeat match type of H with
         | _ \/ _ => destruct H as [H | H]
         | False => destruct H
         | _ = _ => first [discriminate H | injection H as ? ?; subst]
         end.

Ltac here := repeat first [left; reflexivity | right].

(** ** A single run *)

(** C4.  An input that [JSON.parse] rejects ends the run at once: the
    verdict is [error], the step log is the single step [Parse JSON] /
    failure / "Input is not valid JSON.", and neither a helper nor the
    registry is called. *)
Theorem unparsable_input_is_an_error :
  forall te E input w0 e,
    env_parse E input = inl e ->
    let o := run E (runVerification te input) w0 in
    verdict o = Error /\
    stepLog o = [ {| name := "Parse JSON"; status := Failure;
                     message := "Input is not valid JSON." |} ] /\
    completion o = Fulfilled /\
    existsb verificationCall (trace o) = false /\
    trace o = [ Did (SetIsLoading true); Did (SetStatus Verifying);
                Parsed input (inl e); Did (SetStatus Error);
                Published [next w0] [parseFailed];
                Did (SetIsLoading false) ].
Proof.
  intros te E input w0 e Hp o. subst o.
  forward. answer Hp. repeat split.
Qed.

Lemma unparsable_input_is_an_error_witness :
  let E := answering (inl (ErrorObj "Unexpected token n in JSON at position 1"))
             (inr badSignature) (inr "c") (inr "0x00") (inr "0xabc1") (inr false) in
  let o := run E (runVerification nullTypeError "{not json") fresh in
  env_parse E "{not json" = inl (ErrorObj "Unexpected token n in JSON at position 1") /\
  verdict o = Error /\
  stepLog o = [ {| name := "Parse JSON"; status := Failure;
                   message := "Input is not valid JSON." |} ].
Proof.
  intros E o. split; [reflexivity|].
  pose proof (unparsable_input_is_an_error nullTypeError E "{not json" fresh
                (e := ErrorObj "Unexpected token n in JSON at position 1")
                eq_refl) as H.
  split; [exact (proj1 H) | exact (proj1 (proj2 H))].
Defined.

(** C1.  When the input parses and the signature verifier answers
    [valid: false], the verdict is [invalid], the step log is the single
    step [Cryptographic Signature] / failure / the verifier's reason, and
    the registry is asked neither for the controller nor for the
    revocation status. *)
Theorem invalid_signature_stops_the_run :
  forall te E input w0 v sg,
    env_parse E input = inr v ->
    env_verify E v = inr sg ->
    valid sg = false ->
    let o := run E (runVerification te input) w0 in
    verdict o = Invalid /\
    stepLog o = [ {| name := "Cryptographic Signature"; status := Failure;
                     message := reason sg |} ] /\
    existsb registryCall (trace o) = false /\
    completion o = Fulfilled /\
    UI.isLoading (ui (final o)) = false.
Proof.
  intros te E input w0 v sg Hp Hv Hf o. subst o.
  forward. answer Hp. answer Hv. answer Hf.
  unfold signatureStep. rewrite Hf. repeat split.
Qed.

Lemma invalid_signature_stops_the_run_witness :
  let E := answering (inr degree) (inr badSignature) (inr "c") (inr "0x00")
             (inr "0xabc1") (inr true) in
  let o := run E (runVerification nullTypeError "{}") fresh in
  (env_parse E "{}" = inr degree /\ env_verify E degree = inr badSignature /\
   valid badSignature = false) /\
  verdict o = Invalid /\
  stepLog o = [ {| name := "Cryptographic Signature"; status := Failure;
                   message := "Signature does not match." |} ] /\
  existsb registryCall (trace o) = false.
Proof.
  intros E o. split; [repeat split|].
  pose proof (invalid_signature_stops_the_run nullTypeError E "{}" fresh
                (v := degree) (sg := badSignature) eq_refl eq_refl eq_refl) as H.
  split; [exact (proj1 H)|].
  split; [exact (proj1 (proj2 H)) | exact (proj1 (proj2 (proj2 H)))].
Defined.

(** C10.  The call of the signature verifier is not inside a [try]: when
    [verifyVCSignature] throws, the exception leaves [runVerification]
    (its promise is rejected), no step has been published, [status] is
    still [verifying] and [isLoading] is still [true]. *)
Theorem throwing_verifier_escapes :
  forall te E input w0 v e,
    env_parse E input = inr v ->
    env_verify E v = inl e ->
    let o := run E (runVerification te input) w0 in
    completion o = Rejected e /\
    snapshots (trace o) = [] /\
    UI.steps (ui (final o)) = UI.steps (ui w0) /\
    verdict o = Verifying /\
    UI.isLoading (ui (final o)) = true /\
    trace o = [ Did (SetIsLoading true); Did (SetStatus Verifying);
                Parsed input (inr v); Did (SetVc v); Verified v (inl e) ].
Proof.
  intros te E input w0 v e Hp Hv o. subst o.
  forward. answer Hp. answer Hv. repeat split.
Qed.

Lemma throwing_verifier_escapes_witness :
  let e := ErrorObj "invalid signature string" in
  let E := answering (inr degree) (inl e) (inr "c") (inr "0x00")
             (inr "0xabc1") (inr false) in
  let o := run E (runVerification nullTypeError "{}") fresh in
  (env_parse E "{}" = inr degree /\ env_verify E degree = inl e) /\
  completion o = Rejected e /\ stepLog o = [] /\ verdict o = Verifying.
Proof.
  intros e E o. split; [split; reflexivity|].
  pose proof (throwing_verifier_escapes nullTypeError E "{}" fresh
                (v := degree) (e := e) eq_refl eq_refl) as H.
  split; [exact (proj1 H)|].
  split; [reflexivity | exact (proj1 (proj2 (proj2 (proj2 H))))].
Defined.

(** ** The comparison of identities *)

Lemma allUnits_complete (c : ascii) : In c allUnits.
Proof.
  unfold allUnits. rewrite <- (ascii_nat_embedding c).
  apply in_map, in_seq. pose proof (nat_ascii_bounded c). lia.
Qed.

(** Two characters have the same lower-case form exactly when they are
    the same letter. *)
Lemma lowerUnit_sameLetter (x y : ascii) :
  Ascii.eqb (lowerUnit x) (lowerUnit y) = sameLetter x y.
Proof.
  assert (H : forallb (fun x => forallb (fun y =>
                Bool.eqb (Ascii.eqb (lowerUnit x) (lowerUnit y)) (sameLetter x y))
              allUnits) allUnits = true) by (vm_compute; reflexivity).
  rewrite forallb_forall in H. specialize (H x (allUnits_complete x)).
  rewrite forallb_forall in H. specialize (H y (allUnits_complete y)).
  now apply Bool.eqb_prop.
Qed.

(** Lower-casing both sides and comparing is the case-insensitive
    comparison. *)
Lemma toLowerCase_equalIgnoringCase (a : string) :
  forall b, String.eqb (toLowerCase a) (toLowerCase b) = equalIgnoringCase a b.
Proof.
  induction a as [|x a IH]; intros [|y b]; cbn; try reflexivity.
  rewrite lowerUnit_sameLetter, IH. reflexivity.
Qed.

Lemma sameIdentity_spec (c : string) (signer : option string) :
  sameIdentity c signer = true <->
  exists a, signer = Some a /\ equalIgnoringCase c a = true.
Proof.
  destruct signer as [a|]; simpl; rewrite ?toLowerCase_equalIgnoringCase; split.
  - intros H. exists a. split; [reflexivity | exact H].
  - intros (a' & Ha & Hl). injection Ha as <-. exact Hl.
  - discriminate.
  - intros (a' & Ha & _). discriminate.
Qed.

(** ** A run on a credential with an accepted signature *)

(** With a valid signature the verdict depends on the answer of the
    revocation block alone. *)
Lemma verdict_of_valid_signature te E input w0 v sg :
  env_parse E input = inr v ->
  env_verify E v = inr sg ->
  valid sg = true ->
  verdict (run E (runVerification te input) w0) =
  verdictAfter te (revocationAnswer te E v).
Proof.
  intros Hp Hv Hf. unfold revocationAnswer, verdictAfter.
  forward. answer Hp. answer Hv. answer Hf.
  repeat branch; reflexivity.
Qed.





(** With a valid signature the step log at the end of the run has the
    three steps, each decided by its own answer. *)
Lemma stepLog_of_valid_signature te E input w0 v sg :
  env_parse E input = inr v ->
  env_verify E v = inr sg ->
  valid sg = true ->
  let o := run E (runVerification te input) w0 in
  stepLog o = [signatureStep sg;
               controllerEnds sg (controllerAnswer te E v);
               revocationEnds te (revocationAnswer te E v)] /\
  completion o = completionAfter te (revocationAnswer te E v).
Proof.
  intros Hp Hv Hf o. subst o.
  unfold controllerAnswer, revocationAnswer, controllerEnds, revocationEnds,
    completionAfter.
  forward. answer Hp. answer Hv. answer Hf.
  repeat branch; split; reflexivity || congruence.
Qed.

Lemma sameIdentity_lowercase (c : string) (signer : option string) :
  sameIdentity c signer = true <->
  exists a, signer = Some a /\ toLowerCase c = toLowerCase a.
Proof.
  destruct signer as [a|]; simpl; split.
  - intros H. exists a. split; [reflexivity | now apply String.eqb_eq].
  - intros (a' & Ha & Hl). injection Ha as <-. now apply String.eqb_eq.
  - discriminate.
  - intros (a' & Ha & _). discriminate.
Qed.

(** C6.  When the registry resolves the controller, the step [Issuer DID
    Control] ends as [success] exactly when the controller and the
    recovered signer are the same identity whatever the case of their
    letters, which is what comparing their lower-case forms decides, and as
    [warning] otherwise; the verdict and the way the run ends are the same
    for any other answer of the controller resolution: they are those of
    the revocation step. *)
Theorem controller_step_compares_lowercased :
  forall te E input w0 v sg issuer c,
    env_parse E input = inr v ->
    env_verify E v = inr sg ->
    valid sg = true ->
    let o := run E (runVerification te input) w0 in
    In (ControllerAsked issuer (inr c)) (trace o) ->
    (exists controllerStep rest,
        stepLog o = signatureStep sg :: controllerStep :: rest /\
        name controllerStep = "Issuer DID Control" /\
        (status controllerStep = Success <->
         exists a, recoveredAddress sg = Some a /\ equalIgnoringCase c a = true) /\
        (status controllerStep = Success <->
         exists a, recoveredAddress sg = Some a /\ toLowerCase c = toLowerCase a) /\
        (status controllerStep = Success \/ status controllerStep = Warning)) /\
    (forall g, let o' := run (withController E g) (runVerification te input) w0 in
               verdict o' = verdict o /\ completion o' = completion o) /\
    verdict o = verdictAfter te (revocationAnswer te E v).
Proof.
  intros te E input w0 v sg issuer c Hp Hv Hf o Hin.
  split; [|split].
  - subst o. forward. answer Hp. answer Hv. answer Hf.
    repeat branch; among Hin.
    all: eexists; eexists; split; [reflexivity|]; cbn.
    all: split; [reflexivity|].
    all: split; [rewrite <- sameIdentity_spec; split; congruence|].
    all: split; [rewrite <- sameIdentity_lowercase; split; congruence|].
    all: auto.
  - intros g o'. subst o o'.
    destruct (@stepLog_of_valid_signature te E input w0 v sg Hp Hv Hf) as [_ Hc].
    destruct (@stepLog_of_valid_signature te (withController E g) input w0 v sg
                Hp Hv Hf) as [_ Hc'].
    rewrite Hc, Hc'.
    rewrite (@verdict_of_valid_signature te E input w0 v sg Hp Hv Hf).
    rewrite (@verdict_of_valid_signature te (withController E g) input w0 v sg Hp Hv Hf).
    split; reflexivity.
  - subst o. exact (@verdict_of_valid_signature te E input w0 v sg Hp Hv Hf).
Qed.

Lemma controller_step_compares_lowercased_witness :
  let E := answering (inr degree) (inr (signedBy "0xAbC1")) (inr "c") (inr "0x00")
             (inr "0xABC1") (inr false) in
  let o := run E (runVerification nullTypeError "{}") fresh in
  (env_parse E "{}" = inr degree /\ env_verify E degree = inr (signedBy "0xAbC1") /\
   valid (signedBy "0xAbC1") = true /\
   In (ControllerAsked (Some (JStr "did:ethr:0xAbC1")) (inr "0xABC1")) (trace o)) /\
  (exists controllerStep rest,
      stepLog o = signatureStep (signedBy "0xAbC1") :: controllerStep :: rest /\
      status controllerStep = Success) /\
  (forall g, verdict (run (withController E g) (runVerification nullTypeError "{}") fresh)
             = verdict o).
Proof.
  intros E o.
  assert (Hin : In (ControllerAsked (Some (JStr "did:ethr:0xAbC1")) (inr "0xABC1"))
                   (trace o)) by (cbn; here).
  split; [repeat split; exact Hin|].
  destruct (@controller_step_compares_lowercased nullTypeError E "{}"
              fresh degree (signedBy "0xAbC1") _ _ eq_refl eq_refl eq_refl Hin)
    as ((controllerStep & rest & Hlog & _ & Hcase & _) & Hsame & _).
  split.
  - exists controllerStep, rest. split; [exact Hlog|].
    apply Hcase. exists "0xAbC1". split; reflexivity.
  - intros g. exact (proj1 (Hsame g)).
Defined.
(** ** The credential without its proof *)

Lemma decimal_aux_digit fuel :
  forall n acc, exists d rest, d < 10 /\
    decimal_aux (S fuel) n acc = String (digit d) rest.
Proof.
  induction fuel as [|fuel IH]; intros n acc.
  - exists (n mod 10), acc. split; [apply Nat.mod_upper_bound; lia|].
    cbn [decimal_aux]. now destruct (Nat.ltb n 10).
  - cbn [decimal_aux]. destruct (Nat.ltb n 10).
    + exists (n mod 10), acc. split; [apply Nat.mod_upper_bound; lia | reflexivity].
    + apply IH.
Qed.

(** An index is not the key [proof]. *)
Lemma decimal_is_not_proof n : String.eqb (decimal n) "proof" = false.
Proof.
  unfold decimal. destruct (decimal_aux_digit n n EmptyString) as (d & rest & Hd & ->).
  cbn. do 10 (destruct d as [|d]; [reflexivity|]). lia.
Qed.

Lemma lookup_indexed (A : Type) (f : A -> Json) (l : list A) :
  forall i, lookup "proof" (indexed i (map f l)) = None.
Proof.
  induction l as [|x l IH]; intros i; cbn [map indexed lookup]; [reflexivity|].
  rewrite decimal_is_not_proof. apply IH.
Qed.

Lemma lookup_chars s : forall i, lookup "proof" (indexed i (chars s)) = None.
Proof.
  induction s as [|c s IH]; intros i; cbn [chars indexed lookup]; [reflexivity|].
  rewrite decimal_is_not_proof. apply IH.
Qed.
Lemma lookup_without key k props :
  lookup k (without key props) =
  if String.eqb k key then None else lookup k props.
Proof.
  unfold without. induction props as [|[k' v] props IH]; cbn.
  - now destruct (String.eqb k key).
  - destruct (String.eqb k' key) eqn:Hk'; cbn.
    + rewrite IH. destruct (String.eqb k key) eqn:Hk; [reflexivity|].
      destruct (String.eqb k' k) eqn:Hkk; [|reflexivity].
      apply String.eqb_eq in Hkk, Hk'. subst. now rewrite String.eqb_refl in Hk.
    + rewrite IH. destruct (String.eqb k' k) eqn:Hkk; [|reflexivity].
      apply String.eqb_eq in Hkk. subst. now rewrite Hk'.
Qed.

Lemma without_absent key props :
  lookup key props = None -> without key props = props.
Proof.
  unfold without. induction props as [|[k v] props IH]; cbn; [reflexivity|].
  destruct (String.eqb k key); [discriminate|]. cbn. intros H. now rewrite IH.
Qed.

Lemma without_split key before p after :
  lookup key before = None ->
  lookup key after = None ->
  without key (before ++ (key, p) :: after) = (before ++ after)%list.
Proof.
  intros Hb Ha. unfold without. rewrite filter_app. cbn.
  rewrite String.eqb_refl. cbn.
  fold (without key before). fold (without key after).
  now rewrite !without_absent.
Qed.

(** What [const { proof, ...vcWithoutProof } = parsedVc] leaves of an
    object: every property but [proof], with its value, in the order it
    had. *)
(** Whatever was parsed, what is canonicalized is an object that has no
    [proof]. *)
Lemma removeProof_has_no_proof te v body :
  removeProof te v = inr body ->
  exists rest, body = JObj rest /\ lookup "proof" rest = None.
Proof.
  destruct v as [|b|f|s|items|props]; cbn; intros H; try discriminate H;
    injection H as <-; eexists; (split; [reflexivity|]); try reflexivity.
  - apply lookup_chars.
  - rewrite <- (map_id items). apply lookup_indexed.
  - now rewrite lookup_without.
Qed.

Lemma removeProof_strips te props body :
  removeProof te (JObj props) = inr body ->
  exists rest,
    body = JObj rest /\
    (forall k, lookup k rest = if String.eqb k "proof" then None else lookup k props) /\
    (forall before p after,
        props = (before ++ ("proof", p) :: after)%list ->
        lookup "proof" before = None ->
        lookup "proof" after = None ->
        rest = (before ++ after)%list) /\
    (lookup "proof" props = None -> rest = props).
Proof.
  cbn. intros H. injection H as <-. eexists. split; [reflexivity|].
  split; [|split].
  - intros k. apply lookup_without.
  - intros before p after -> Hb Ha. now apply without_split.
  - apply without_absent.
Qed.

(** Every revocation lookup of a run is made with what the two helpers
    made of [vcWithoutProof], in that order; a run makes one at most. *)
Lemma revocation_lookup_chain te E input w0 h r :
  let o := run E (runVerification te input) w0 in
  In (RevocationAsked h r) (trace o) ->
  exists v body canonical,
    env_parse E input = inr v /\
    removeProof te v = inr body /\
    env_canonicalize E body = inr canonical /\
    env_hash E canonical = inr h /\
    r = env_isRevoked E h /\
    exists before after,
      trace o = (before
                   ++ [Canonicalized body (inr canonical);
                       Hashed canonical (inr h);
                       RevocationAsked h r]
                   ++ after)%list /\
      existsb verificationCall after = false /\
      forallb (fun ev => match ev with
                         | Canonicalized _ _ | Hashed _ _ | RevocationAsked _ _ => false
                         | _ => true
                         end) before = true.
Proof.
  intros o Hin. subst o.
  forward.
  repeat branch; among Hin.
  all: do 3 eexists.
  all: split; [reflexivity|]; do 3 (split; [eassumption|]).
  all: split; [symmetry; assumption|].
  all: match goal with
       | |- exists before after, ?t = _ /\ _ =>
           first [ exists (firstn 11 t), (skipn 14 t); cbn; repeat split; fail
                 | exists (firstn 12 t), (skipn 15 t); cbn; repeat split; fail ]
       end.
Qed.

(** C5.  Every revocation lookup of a run is made with the hash of the
    canonical form of the credential without its [proof]: the proof is
    stripped -- every other property of the credential is kept, with its
    value and in its place, and [proof] is not --, the rest is
    canonicalized, the canonical form is hashed, in that order, and that
    hash is the argument of [isRevoked]; a run makes one such lookup at
    most. *)
Theorem revocation_key_is_hash_of_canonical_body :
  forall te E input w0 h r,
    let o := run E (runVerification te input) w0 in
    In (RevocationAsked h r) (trace o) ->
    exists v body canonical,
      env_parse E input = inr v /\
      (exists rest, body = JObj rest /\ lookup "proof" rest = None) /\
      (forall props, v = JObj props ->
         exists rest,
           body = JObj rest /\
           (forall k, lookup k rest =
                      if String.eqb k "proof" then None else lookup k props) /\
           (forall before p after,
               props = (before ++ ("proof", p) :: after)%list ->
               lookup "proof" before = None ->
               lookup "proof" after = None ->
               rest = (before ++ after)%list) /\
           (lookup "proof" props = None -> rest = props)) /\
      removeProof te v = inr body /\
      env_canonicalize E body = inr canonical /\
      env_hash E canonical = inr h /\
      r = env_isRevoked E h /\
      exists before after,
        trace o = (before
                     ++ [Canonicalized body (inr canonical);
                         Hashed canonical (inr h);
                         RevocationAsked h r]
                     ++ after)%list /\
        existsb verificationCall after = false /\
        forallb (fun ev => match ev with
                           | Canonicalized _ _ | Hashed _ _ | RevocationAsked _ _ => false
                           | _ => true
                           end) before = true.
Proof.
  intros te E input w0 h r o Hin.
  destruct (@revocation_lookup_chain te E input w0 h r Hin)
    as (v & body & canonical & Hp & Hb & Hrest).
  exists v, body, canonical. split; [exact Hp|].
  split; [now apply (@removeProof_has_no_proof te v)|].
  split; [|split; [exact Hb | exact Hrest]].
  intros props ->. now apply (@removeProof_strips te).
Qed.

Lemma revocation_key_is_hash_of_canonical_body_witness :
  let E := {| env_parse := fun _ => inr transcript;
              env_verify := fun _ => inr (signedBy "0xAbC1");
              env_canonicalize := fun _ => inr "{canonical}";
              env_hash := fun c => inr ("keccak:" ++ c);
              env_getController := fun _ => inr "0xabc1";
              env_isRevoked := fun _ => inr false |} in
  let o := run E (runVerification nullTypeError "{}") fresh in
  In (RevocationAsked "keccak:{canonical}" (inr false)) (trace o) /\
  exists canonical,
    In (Canonicalized
          (JObj [("issuer", JStr "did:ethr:0xAbC1");
                 ("credentialSubject", JObj [("id", JStr "did:ethr:0x02")])])
          (inr canonical)) (trace o) /\
    env_hash E canonical = inr "keccak:{canonical}".
Proof.
  intros E o.
  assert (Hin : In (RevocationAsked "keccak:{canonical}" (inr false)) (trace o))
    by (cbn; here).
  split; [exact Hin|].
  destruct (@revocation_key_is_hash_of_canonical_body nullTypeError E "{}" fresh
              _ _ Hin)
    as (v & body & canonical & Hp & _ & Hstrip & _ & _ & Hh & _ & before & after & Ht & _).
  injection Hp as <-.
  destruct (Hstrip _ eq_refl) as (rest & -> & _ & Hsplit & _).
  rewrite (Hsplit [("issuer", JStr "did:ethr:0xAbC1")] _
                  [("credentialSubject", JObj [("id", JStr "did:ethr:0x02")])]
                  eq_refl eq_refl eq_refl) in Ht.
  exists canonical. split; [|exact Hh].
  unfold o. rewrite Ht. apply in_or_app. right. left. reflexivity.
Defined.
(** ** A fault in the revocation step *)



(** ** The step log as it is published *)

(** C7.  The arrays a run hands to [setSteps], in order: each extends the
    one before it by references appended at the end, so that no step is
    removed or moved; the names they show are a prefix of Cryptographic
    Signature, Issuer DID Control, Revocation Status (or the single step
    Parse JSON); when the registry is called, the snapshot published last
    ends with the pending placeholder of the calling step; and at the end
    of the run every published reference is still in the log, at its
    place, and shows a status other than [pending]. *)
Theorem step_log_grows_in_execution_order :
  forall te E input w0,
    let o := run E (runVerification te input) w0 in
    growing (map fst (snapshots (trace o))) /\
    growing (map (fun snap => map name (snd snap)) (snapshots (trace o))) /\
    Forall (fun snap => map name (snd snap) = ["Parse JSON"] \/
                        prefix (map name (snd snap)) stepNames)
           (snapshots (trace o)) /\
    announced [] (trace o) /\
    Forall (fun snap => prefix (fst snap) (UI.steps (ui (final o))) /\
                        Forall decided (stepLog o))
           (snapshots (trace o)).
Proof.
  intros te E input w0 o.
  remember (run E (runVerification te input) w0) as r eqn:Hr.
  subst o. unfold runVerification in Hr. cbn in Hr.
  repeat branch.
  all: subst r; unfold stepLog, shown; tidy.
  all: unfold prefix, endsPending, decided, stepNames; cbn.
  all: repeat match goal with
       | |- _ /\ _ => split
       | |- True => exact I
       | |- Forall _ [] => constructor
       | |- Forall _ (_ :: _) => constructor
       end.
  all: cbn.
  all: first
    [ left; reflexivity
    | right; eexists; reflexivity
    | destruct (valid _); discriminate
    | discriminate
    | match goal with
      | |- exists front m, ?v = _ => exists (removelast v); eexists; reflexivity
      end
    | eexists; reflexivity ].
Qed.

(** ** Several runs of the mounted component *)

(** The history read in two parts. *)
Lemma stale_app h : forall n h', stale n (h ++ h') = stale n h || stale (runsAfter n h) h'.
Proof.
  induction h as [|[id|id ev|text] h IH]; intros n h'; cbn; auto.
  rewrite IH. now rewrite orb_assoc.
Qed.

Lemma runsAfter_app h : forall n h', runsAfter n (h ++ h') = runsAfter (runsAfter n h) h'.
Proof. induction h as [|[id|id ev|text] h IH]; intros n h'; cbn; auto. Qed.

Lemma stale_applied id n evs : n <= S id -> stale n (map (Applied id) evs) = false.
Proof.
  intros Hn. induction evs as [|ev evs IH]; cbn; auto.
  rewrite IH, orb_false_r. apply andb_false_iff. right. change (Nat.ltb (S id) n = false). apply Nat.ltb_ge. exact Hn.
Qed.

Lemma runsAfter_applied id n evs : runsAfter n (map (Applied id) evs) = n.
Proof. induction evs; cbn; auto. Qed.

(** A run that awaits only while [isLoading] is [true] is suspended with
    [isLoading = true], and is so again each time it is resumed. *)
Lemma exec_awaitsLoading E (p : Prog unit) :
  forall w, awaitsLoading (UI.isLoading (ui w)) p ->
    resumable (paused (exec E p w)) /\
    match paused (exec E p w) with
    | Settled _ => True
    | _ => UI.isLoading (ui (reached (exec E p w))) = true
    end.
Proof.
  induction p as [a|e| |a k IH|s k IH|t k IH|v k IH|v k IH|c k IH|i k IH|h k IH];
    intros w H; cbn in *; auto.
  all: try solve [apply IH, H | destruct H; auto].
  destruct a; apply IH; exact H.
Qed.

(** [runVerification] sets [isLoading] before anything else and clears it
    only where it ends. *)
Lemma runVerification_awaitsLoading te input b : awaitsLoading b (runVerification te input).
Proof.
  unfold runVerification.
  repeat (cbn; match goal with
               | |- forall _, _ => intro
               | |- _ /\ _ => split
               | |- True => exact I
               | |- _ = _ => reflexivity
               | |- context [settle ?x] => destruct x
               | |- context [match ?x with _ => _ end] => destruct x
               end).
Qed.

Lemma oneRun_suspend id sl hist :
  resumable (paused sl) ->
  match paused sl with
  | Settled _ => True
  | _ => UI.isLoading (ui (reached sl)) = true
  end ->
  oneRun {| world := reached sl; inflight := suspend id (paused sl) [];
            started := S id; history := hist |}.
Proof.
  unfold oneRun. cbn. destruct (paused sl); cbn; auto.
Qed.

(** Clicks, edits and settling promises keep the component coherent. *)
Lemma react_coherent te E s h : coherent s -> coherent (react te E s h).
Proof.
  intros (Hone & Hstale & Hruns). destruct h as [|text|id r|id r]; unfold react.
  - destruct (buttonDisabled (ui (world s))) eqn:Hb; [repeat split; assumption|].
    unfold buttonDisabled in Hb. apply orb_false_iff in Hb. destruct Hb as [Hl _].
    assert (Hnone : inflight s = []).
    { unfold oneRun in Hone. destruct (inflight s) as [|[i p] [|]]; auto.
      - destruct Hone as (_ & _ & Ht). congruence.
      - destruct Hone. }
    rewrite Hnone.
    destruct (@exec_awaitsLoading E (runVerification te (UI.vcInput (ui (world s))))
                (world s) (runVerification_awaitsLoading _ _ _)) as [Hres Hload].
    set (sl := exec E _ (world s)) in *.
    unfold coherent; cbn [world inflight started history]. repeat split.
    + now apply oneRun_suspend.
    + rewrite stale_app, Hstale, Hruns. cbn [orb stale]. apply stale_applied. lia.
    + rewrite runsAfter_app, Hruns. cbn [runsAfter]. apply runsAfter_applied.
  - unfold coherent; cbn [world inflight started history]. repeat split.
    + unfold oneRun in *. cbn [world inflight started history].
      destruct (inflight s) as [|[i p] [|]]; auto.
    + rewrite stale_app, Hstale. reflexivity.
    + rewrite runsAfter_app, Hruns. reflexivity.
  - unfold oneRun in Hone.
    destruct (inflight s) as [|[i p] [|]] eqn:Hin; cbn [awaiting];
      try (unfold coherent, oneRun; rewrite Hin; tauto).
    + destruct (Nat.eqb i id) eqn:Hid.
      2:{ unfold coherent, oneRun; rewrite Hin; tauto. }
      apply Nat.eqb_eq in Hid. subst i.
      destruct p as [c|issuer k|hash k];
        try (unfold coherent, oneRun; rewrite Hin; tauto).
      destruct Hone as (Hid & Hres & Hload). cbn in Hres.
      destruct (@exec_awaitsLoading E (k r) (world s)) as [Hres' Hload'].
      { rewrite Hload. apply Hres. }
      set (sl := exec E (k r) (world s)) in *.
      unfold resume, coherent; cbn [world inflight started history]. rewrite Hin.
      unfold forget. cbn [filter fst]. rewrite Nat.eqb_refl. cbn [negb].
      repeat split.
      * rewrite <- Hid. now apply oneRun_suspend.
      * rewrite stale_app, Hstale, Hruns. cbn [orb]. apply stale_applied. lia.
      * rewrite runsAfter_app, Hruns. apply runsAfter_applied.
    + destruct Hone.
  - unfold oneRun in Hone.
    destruct (inflight s) as [|[i p] [|]] eqn:Hin; cbn [awaiting];
      try (unfold coherent, oneRun; rewrite Hin; tauto).
    + destruct (Nat.eqb i id) eqn:Hid.
      2:{ unfold coherent, oneRun; rewrite Hin; tauto. }
      apply Nat.eqb_eq in Hid. subst i.
      destruct p as [c|issuer k|hash k];
        try (unfold coherent, oneRun; rewrite Hin; tauto).
      destruct Hone as (Hid & Hres & Hload). cbn in Hres.
      destruct (@exec_awaitsLoading E (k r) (world s)) as [Hres' Hload'].
      { rewrite Hload. apply Hres. }
      set (sl := exec E (k r) (world s)) in *.
      unfold resume, coherent; cbn [world inflight started history]. rewrite Hin.
      unfold forget. cbn [filter fst]. rewrite Nat.eqb_refl. cbn [negb].
      repeat split.
      * rewrite <- Hid. now apply oneRun_suspend.
      * rewrite stale_app, Hstale, Hruns. cbn [orb]. apply stale_applied. lia.
      * rewrite runsAfter_app, Hruns. apply runsAfter_applied.
    + destruct Hone.
Qed.

Lemma play_coherent te E schedule : forall s, coherent s -> coherent (play te E s schedule).
Proof.
  unfold play. induction schedule as [|h schedule IH]; intros s Hs; cbn [fold_left]; auto.
  apply IH. now apply react_coherent.
Qed.

(** C8.  Whatever clicks, edits and settling promises follow the mounting
    of the component, no run hands a step log or a verdict to the page
    after a newer run has started.  A run cannot start before the one
    before it has ended: the Verify button is disabled while [isLoading]
    is [true], and [isLoading] is [true] from the start of a run to its
    end, so that at most one run is in flight, it is the newest, and a
    click while it is in flight starts nothing. *)
Theorem no_result_is_applied_after_a_newer_run_started :
  forall te E h n schedule,
    let s := play te E (mounted h n) schedule in
    stale 0 (history s) = false /\
    List.length (inflight s) <= 1 /\
    (forall id p, In (id, p) (inflight s) ->
       S id = started s /\
       buttonDisabled (ui (world s)) = true /\
       react te E s Start = s).
Proof.
  intros te E h n schedule s.
  assert (Hs : coherent s).
  { apply play_coherent. repeat split. }
  destruct Hs as (Hone & Hstale & _). unfold oneRun in Hone.
  split; [exact Hstale|].
  destruct (inflight s) as [|[i p] [|]] eqn:Hin; cbn [List.length].
  - split; [lia|]. intros id p [].
  - destruct Hone as (Hid & _ & Hload).
    split; [lia|].
    intros id q [Heq|[]]. injection Heq as <- <-.
    assert (Hb : buttonDisabled (ui (world s)) = true)
      by (unfold buttonDisabled; now rewrite Hload).
    split; [assumption|]. split; [exact Hb|].
    unfold react. now rewrite Hb.
  - destruct Hone.
Qed.

(** * Further properties of the component *)

(** Every path of a run [r], each with its final world computed. *)
Ltac paths r :=
  unfold runVerification in *; cbn in *; repeat branch; subst r;
  unfold stepLog, verdict, shown in *; tidy.

(** A path on which the run has ended otherwise than supposed. *)
Ltac absurd_completion :=
  try match goal with
      | H : Fulfilled = Rejected _ |- _ => discriminate H
      | H : Rejected _ = Fulfilled |- _ => discriminate H
      end.


(** Uses the answers known on a path. *)
Ltac known :=
  repeat match goal with
         | H : ?x = _ |- context [match ?x with _ => _ end] =>
             rewrite H; cbn beta iota
         end.

(** ** How a run ends *)

(** A run ends rejected in two ways only: the signature verifier has
    thrown, or the [catch] of the revocation step has, reading the message
    of a caught [null] or [undefined]; [status] is then still [verifying]
    and [isLoading] still [true].  Every other run ends fulfilled, with
    [isLoading] cleared, a step log that is not empty, and one of the four
    verdicts; the verdict is [error] exactly when the input does not
    parse. *)
Theorem a_run_is_rejected_in_two_ways_only :
  forall te E input w0,
    let o := run E (runVerification te input) w0 in
    match completion o with
    | Rejected e =>
        UI.isLoading (ui (final o)) = true /\
        verdict o = Verifying /\
        exists v, env_parse E input = inr v /\
          (env_verify E v = inl e /\ snapshots (trace o) = [] \/
           exists sg e', env_verify E v = inr sg /\ valid sg = true /\
                         revocationAnswer te E v = inl e' /\
                         messageOf te e' = inl e)
    | Fulfilled =>
        UI.isLoading (ui (final o)) = false /\
        In (verdict o) [Error; Invalid; Revoked; Valid] /\
        (verdict o = Error <-> exists e, env_parse E input = inl e) /\
        stepLog o <> []
    end.
Proof.
  intros te E input w0 o.
  remember (run E (runVerification te input) w0) as r eqn:Hr. subst o.
  unfold revocationAnswer.
  paths r; absurd_completion.
  all: try match goal with H : Rejected _ = Rejected _ |- _ => injection H as <- end.
  all: try (split; [reflexivity|]; split; [reflexivity|]; eexists; split; [reflexivity|]).
  all: try solve [left; split; [assumption | reflexivity]].
  all: try solve [right; do 2 eexists; split; [eassumption|];
                  split; [now apply negb_false_iff|]; split; [known; first [reflexivity | eassumption] | assumption]].
  all: split; [reflexivity|]; split; [cbn; tauto|]; split; [|discriminate].
  all: split; [try discriminate; intros _; eexists; reflexivity
              | try reflexivity; intros [? ?]; discriminate].
Qed.

(** ** What a run writes and calls *)

(** A run hands [setStatus] the value [verifying] first and, when it ends
    fulfilled, its verdict next, and nothing else; it sets [isLoading]
    first and clears it last, and only when it ends fulfilled.  The first
    call of a run is [JSON.parse], on the input. *)
Theorem status_goes_from_verifying_to_the_verdict :
  forall te E input w0,
    let o := run E (runVerification te input) w0 in
    statusWrites (trace o) =
      Verifying :: match completion o with
                   | Fulfilled => [verdict o]
                   | Rejected _ => []
                   end /\
    loadingWrites (trace o) =
      true :: match completion o with
              | Fulfilled => [false]
              | Rejected _ => []
              end /\
    (exists rest, trace o = Did (SetIsLoading true) :: Did (SetStatus Verifying)
                              :: Parsed input (env_parse E input) :: rest) /\
    match completion o with
    | Fulfilled => exists front, trace o = (front ++ [Did (SetIsLoading false)])%list
    | Rejected _ => True
    end.
Proof.
  intros te E input w0 o.
  remember (run E (runVerification te input) w0) as r eqn:Hr. subst o.
  paths r; absurd_completion.
  all: repeat split; try (eexists; reflexivity).
  all: try congruence.
  all: match goal with
       | |- exists front, ?t = _ => exists (removelast t); reflexivity
       end.
Qed.

(** The calls of a run are an initial part of: [JSON.parse],
    [verifyVCSignature], [getController], [canonicalizeVC],
    [computeCredentialHash], [isRevoked].  The revocation lookup is made
    after the controller resolution has settled, and the registry is asked
    only about a credential that parsed and whose signature the verifier
    accepted. *)
Theorem calls_follow_the_pipeline :
  forall te E input w0,
    let o := run E (runVerification te input) w0 in
    prefix (calls (trace o)) pipeline /\
    (In RevocationCall (calls (trace o)) -> calls (trace o) = pipeline) /\
    (existsb registryCall (trace o) = true ->
     exists v sg, env_parse E input = inr v /\ env_verify E v = inr sg /\
                  valid sg = true).
Proof.
  intros te E input w0 o.
  remember (run E (runVerification te input) w0) as r eqn:Hr. subst o.
  paths r.
  all: try match goal with
           | H : getProp _ ?v _ = inl _, H' : removeProof _ ?v = inr _ |- _ =>
               destruct v; discriminate H || discriminate H'
           end.
  all: unfold prefix, pipeline.
  all: split; [eexists; reflexivity|].
  all: split; [intros H; among H; try reflexivity|].
  all: intros H; try discriminate H.
  all: do 2 eexists; split; [reflexivity|]; split; [eassumption|].
  all: now apply negb_false_iff.
Qed.

(** ** What a run leaves as it found it *)

(** What a run leaves as it found it, and where its step objects are. *)
Lemma run_frame te E input w0 :
  let o := run E (runVerification te input) w0 in
  UI.vcInput (ui (final o)) = UI.vcInput (ui w0) /\
  UI.vc (ui (final o)) = match env_parse E input with
                         | inr v => v
                         | inl _ => UI.vc (ui w0)
                         end /\
  (forall l, l < next w0 -> heap (final o) l = heap w0 l) /\
  next w0 <= next (final o) <= next w0 + 3 /\
  Forall (fun snap => Forall (fun l => next w0 <= l < next (final o)) (fst snap) /\
                      NoDup (fst snap))
         (snapshots (trace o)) /\
  (snapshots (trace o) = [] <->
   exists v e, env_parse E input = inr v /\ env_verify E v = inl e) /\
  (snapshots (trace o) = [] ->
   heap (final o) = heap w0 /\ next (final o) = next w0 /\
   UI.steps (ui (final o)) = UI.steps (ui w0)) /\
  (snapshots (trace o) <> [] ->
   Forall (fun l => next w0 <= l < next (final o)) (UI.steps (ui (final o)))).
Proof.
  intros o.
  remember (run E (runVerification te input) w0) as r eqn:Hr. subst o.
  paths r.
  all: split; [reflexivity|]; split; [reflexivity|].
  all: split; [intros l Hl; heap_reads; reflexivity|].
  all: split; [lia|].
  all: split; [|split; [|split]].
  all: try solve [repeat constructor; cbn; try lia; try tauto; intros H; among H; lia].
  all: try solve [intros H; try discriminate H; repeat split].
  all: try solve [intros H; try congruence; repeat constructor; lia].
  all: split; [first [discriminate
                     | intros _; do 2 eexists; split; [reflexivity | eassumption]]
              | intros (? & ? & Hp' & Hv');
                first [discriminate Hp' | reflexivity | injection Hp' as <-; congruence]].
Qed.

(** A run writes to the step objects it has made and to no other: the
    input buffer is as it was, [vc] is the parsed value if there is one,
    the objects of earlier runs are as they were, and every array it
    hands to [setSteps] holds objects of its own, each once; it makes
    three objects at most. *)
Theorem run_touches_only_its_own_steps :
  forall te E input w0,
    let o := run E (runVerification te input) w0 in
    UI.vcInput (ui (final o)) = UI.vcInput (ui w0) /\
    UI.vc (ui (final o)) = match env_parse E input with
                           | inr v => v
                           | inl _ => UI.vc (ui w0)
                           end /\
    (forall l, l < next w0 -> heap (final o) l = heap w0 l) /\
    next w0 <= next (final o) <= next w0 + 3 /\
    Forall (fun snap => Forall (fun l => next w0 <= l < next (final o)) (fst snap) /\
                        NoDup (fst snap))
           (snapshots (trace o)).
Proof.
  intros te E input w0 o.
  destruct (run_frame te E input w0) as (H1 & H2 & H3 & H4 & H5 & _).
  repeat split; assumption || apply H4.
Qed.

(** The way a run ends, its verdict and the step log it publishes are the
    same from any two worlds. *)
Lemma run_result_by_answers te E input w0 w1 :
  let o0 := run E (runVerification te input) w0 in
  let o1 := run E (runVerification te input) w1 in
  completion o1 = completion o0 /\
  verdict o1 = verdict o0 /\
  (snapshots (trace o0) <> [] -> stepLog o1 = stepLog o0).
Proof.
  intros o0 o1. subst o0 o1.
  destruct (env_parse E input) as [e|v] eqn:Hp.
  { forward. rewrite Hp. tidy. repeat split. }
  destruct (env_verify E v) as [e|sg] eqn:Hv.
  { forward. rewrite Hp. tidy. rewrite Hv. tidy. repeat split. congruence. }
  destruct (valid sg) eqn:Hf.
  - destruct (@stepLog_of_valid_signature te E input w0 v sg Hp Hv Hf) as [L0 C0].
    destruct (@stepLog_of_valid_signature te E input w1 v sg Hp Hv Hf) as [L1 C1].
    rewrite C0, C1, L0, L1.
    rewrite !(@verdict_of_valid_signature te E input _ v sg Hp Hv Hf).
    repeat split.
  - forward. rewrite Hp. tidy. rewrite Hv. tidy. rewrite Hf. tidy. repeat split.
Qed.

(** ** A second run on the same input *)


(** ** The page *)

(** How a run ends. *)
Lemma run_ends te E input w0 :
  let o := run E (runVerification te input) w0 in
  (snapshots (trace o) <> [] -> stepLog o <> [] /\ Forall decided (stepLog o)) /\
  match completion o with
  | Fulfilled =>
      UI.isLoading (ui (final o)) = false /\
      In (verdict o) [Error; Invalid; Revoked; Valid] /\
      snapshots (trace o) <> []
  | Rejected _ =>
      UI.isLoading (ui (final o)) = true /\
      verdict o = Verifying
  end.
Proof.
  intros o.
  remember (run E (runVerification te input) w0) as r eqn:Hr. subst o.
  paths r; absurd_completion.
  all: split; [|try (repeat split; reflexivity)].
  all: try solve [intros H; congruence].
  all: try solve [split; [reflexivity|]; split; [cbn; tauto | discriminate]].
  all: intros _; split; [discriminate|].
  all: unfold decided; repeat constructor; cbn; try discriminate.
  all: destruct (valid _); discriminate.
Qed.

Lemma spinner_is_pending (l : list VerificationStep) :
  Forall decided l -> ~ In Spinner (map iconOf (map stepRow l)).
Proof.
  induction 1 as [|s l Hs _ IH]; cbn; [tauto|].
  intros [H|H]; [|exact (IH H)].
  unfold decided in Hs. destruct (status s); cbn in H; congruence.
Qed.


(** The details block is shown exactly when the run has ended with the
    verdict [valid] on a parsed value that is truthy; the values it shows
    are read from the value this run has parsed; and it throws, reading a
    property of [undefined], when the credential verified has no
    [credentialSubject]. *)
Theorem details_are_those_of_the_verified_credential :
  forall te E input w0,
    let o := run E (runVerification te input) w0 in
    let p := page te (final o) in
    (detailsShown (ui (final o)) = true <->
     verdict o = Valid /\ exists v, env_parse E input = inr v /\ truthy v = true) /\
    (forall v, env_parse E input = inr v ->
       detailsShown (ui (final o)) = true ->
       detailsBlock p = match readAll te v detailPaths with
                        | inl e => inl e
                        | inr values => inr (Some values)
                        end) /\
    (forall props, env_parse E input = inr (JObj props) ->
       verdict o = Valid ->
       lookup "credentialSubject" props = None ->
       detailsBlock p = inl te).
Proof.
  intros te E input w0 o p. subst p.
  pose proof (run_frame te E input w0) as (_ & Hvc & _).
  pose proof (run_ends te E input w0) as (_ & Hend).
  fold o in Hvc, Hend.
  assert (Hvalid : verdict o = Valid -> exists v, env_parse E input = inr v).
  { intros Hv. destruct (env_parse E input) as [e|v] eqn:Hp; [|now exists v].
    exfalso. subst o. revert Hv. forward. rewrite Hp. tidy. discriminate. }
  unfold page, details, detailsShown, verdict in *.
  cbn [detailsBlock].
  remember (run E (runVerification te input) w0) as r eqn:Hr. subst o. clear Hr.
  split; [|split].
  - split.
    + destruct (UI.status (ui (final r))) eqn:Hs; try discriminate.
      intros Ht. split; [reflexivity|].
      destruct (Hvalid eq_refl) as [v Hp]. rewrite Hp in Hvc.
      exists v. split; [exact Hp|]. now rewrite <- Hvc.
    + intros (Hs & v & Hp & Ht). rewrite Hs. rewrite Hp in Hvc. now rewrite Hvc.
  - intros v Hp Hs. rewrite Hp in Hvc. rewrite Hs, Hvc. reflexivity.
  - intros props Hp Hs Hnone. rewrite Hp in Hvc. rewrite Hs, Hvc.
    cbn. rewrite Hnone. reflexivity.
Qed.

(** ** Edits and imports *)

Lemma fold_handleInput evs :
  forall u latest,
    fold_left handleInput evs
      (match latest with Some text => handleVcInputChange text u | None => u end) =
    match lastDelivered evs latest with
    | Some text => handleVcInputChange text u
    | None => u
    end.
Proof.
  induction evs as [|ev evs IH]; intros u latest; cbn [fold_left lastDelivered].
  - reflexivity.
  - rewrite <- IH. f_equal.
    destruct ev as [text|[| |[content|]]]; cbn; destruct latest; reflexivity.
Qed.

(** Typing and importing files, in any number and order, leave the page
    reset on the text delivered last -- no verdict, no step, no
    credential --, or as it was when no text was delivered; [isLoading] is
    never changed, so that neither enables the Verify button during a
    run; and the button is disabled when the text delivered last is
    empty. *)
Theorem input_events_reset_the_page :
  forall evs u,
    let u' := fold_left handleInput evs u in
    u' = match lastDelivered evs None with
         | Some text => UI.mk text JNull Idle [] (UI.isLoading u)
         | None => u
         end /\
    UI.isLoading u' = UI.isLoading u /\
    (UI.isLoading u = true -> buttonDisabled u' = true) /\
    (lastDelivered evs None = Some EmptyString -> buttonDisabled u' = true).
Proof.
  intros evs u u'. subst u'.
  pose proof (fold_handleInput evs u None) as H. cbn beta iota in H. rewrite H.
  destruct (lastDelivered evs None) as [text|].
  - split; [reflexivity|]. split; [reflexivity|]. split.
    + intros Hl. unfold buttonDisabled. cbn. now rewrite Hl.
    + intros Ht. injection Ht as ->. unfold buttonDisabled. cbn. apply orb_true_r.
  - split; [reflexivity|]. split; [reflexivity|]. split.
    + intros Hl. unfold buttonDisabled. now rewrite Hl.
    + discriminate.
Qed.

(** ** The credential [null] *)

(** The text [null] is valid JSON.  When the verifier accepts the value
    [null], reading its issuer throws and so does destructuring it: both
    steps end as warnings without the registry being asked, the second
    with the text of the [TypeError], and the verdict is [valid]; the
    details block is not shown. *)
Theorem null_credential_is_valid_with_two_warnings :
  forall te E input w0 sg text,
    env_parse E input = inr JNull ->
    env_verify E JNull = inr sg ->
    valid sg = true ->
    messageOf te te = inr text ->
    let o := run E (runVerification te input) w0 in
    verdict o = Valid /\
    completion o = Fulfilled /\
    stepLog o = [signatureStep sg;
                 mkStep "Issuer DID Control" Warning controllerUnknown;
                 mkStep "Revocation Status" Warning
                   ("Could not check revocation status: " ++ text)] /\
    calls (trace o) = [ParseCall; VerifyCall] /\
    detailsShown (ui (final o)) = false.
Proof.
  intros te E input w0 sg text Hp Hv Hf Hm o. subst o.
  forward. answer Hp. answer Hv. answer Hf. answer Hm.
  unfold detailsShown. cbn. repeat split.
Qed.

Lemma null_credential_is_valid_with_two_warnings_witness :
  let E := answering (inr JNull) (inr (signedBy "0xAbC1")) (inr "c") (inr "0x00")
             (inr "0xabc1") (inr false) in
  let o := run E (runVerification nullTypeError "null") fresh in
  (env_parse E "null" = inr JNull /\
   env_verify E JNull = inr (signedBy "0xAbC1") /\
   valid (signedBy "0xAbC1") = true /\
   messageOf nullTypeError nullTypeError =
     inr "Cannot destructure property 'proof' of 'parsedVc' as it is null.") /\
  verdict o = Valid /\ calls (trace o) = [ParseCall; VerifyCall].
Proof.
  intros E o. split; [repeat split|].
  pose proof (@null_credential_is_valid_with_two_warnings nullTypeError E "null" fresh
                (signedBy "0xAbC1") _ eq_refl eq_refl eq_refl eq_refl) as H.
  split; [exact (proj1 H) | exact (proj1 (proj2 (proj2 (proj2 H))))].
Defined.

(** ** Identities *)

Lemma lowerUnit_idempotent (x : ascii) : lowerUnit (lowerUnit x) = lowerUnit x.
Proof.
  assert (H : forallb (fun x => Ascii.eqb (lowerUnit (lowerUnit x)) (lowerUnit x))
                allUnits = true) by (vm_compute; reflexivity).
  rewrite forallb_forall in H. apply Ascii.eqb_eq, H, allUnits_complete.
Qed.

Lemma toLowerCase_idempotent (a : string) : toLowerCase (toLowerCase a) = toLowerCase a.
Proof. induction a as [|x a IH]; cbn; [reflexivity|]. now rewrite lowerUnit_idempotent, IH. Qed.


(** ** Edits during a run, and the page after a rejected run *)

(** Once [isLoading] is [true] with no run in flight, nothing that can
    happen to the page starts a run or clears [isLoading]. *)
Lemma loading_with_no_run_is_for_good te E schedule :
  forall s,
    UI.isLoading (ui (world s)) = true ->
    inflight s = [] ->
    let s' := play te E s schedule in
    started s' = started s /\ inflight s' = [] /\
    UI.isLoading (ui (world s')) = true /\
    (UI.status (ui (world s')) = UI.status (ui (world s)) \/
     UI.status (ui (world s')) = Idle).
Proof.
  unfold play. induction schedule as [|h schedule IH]; intros s Hl Hin; cbn [fold_left].
  - repeat split; try assumption. now left.
  - destruct h as [|text|id r|id r].
    + assert (Hs : react te E s Start = s).
      { unfold react, buttonDisabled. now rewrite Hl. }
      rewrite Hs. now apply IH.
    + set (s1 := react te E s (Edit text)).
      assert (Hl1 : UI.isLoading (ui (world s1)) = true) by exact Hl.
      assert (Hin1 : inflight s1 = []) by exact Hin.
      destruct (IH s1 Hl1 Hin1) as (H1 & H2 & H3 & H4).
      repeat split; try assumption. right. destruct H4 as [H4|H4]; exact H4.
    + assert (Hs : react te E s (ControllerSettles id r) = s).
      { unfold react. now rewrite Hin. }
      rewrite Hs. now apply IH.
    + assert (Hs : react te E s (RevocationSettles id r) = s).
      { unfold react. now rewrite Hin. }
      rewrite Hs. now apply IH.
Qed.

(** After a run that the signature verifier has ended by throwing, the
    page stays as the run left it: whatever clicks, edits and settling
    promises follow, no second run starts, the Verify button stays
    disabled with the label Verifying..., and the pill reads VERIFYING...
    (Awaiting Verification once the input has been edited). *)
Theorem page_stays_disabled_after_a_rejected_run :
  forall te E h n text v e schedule,
    text <> EmptyString ->
    env_parse E text = inr v ->
    env_verify E v = inl e ->
    let s := play te E (mounted h n) (Edit text :: Start :: schedule) in
    let p := page te (world s) in
    started s = 1 /\ inflight s = [] /\
    verifyDisabled p = true /\
    verifyLabel p = "Verifying..." /\
    In (pillText (pill p)) ["VERIFYING..."; "Awaiting Verification"].
Proof.
  intros te E h n text v e schedule Ht Hp Hv s p. subst p s.
  unfold play. cbn [fold_left].
  set (s2 := react te E (react te E (mounted h n) (Edit text)) Start).
  assert (H2 : started s2 = 1 /\ inflight s2 = [] /\
               UI.isLoading (ui (world s2)) = true /\
               UI.status (ui (world s2)) = Verifying).
  { subst s2. unfold react, mounted, buttonDisabled, handleVcInputChange, resetState.
    cbn [world ui UI.isLoading UI.vcInput orb setUi].
    destruct text as [|c text]; [congruence|].
    unfold runVerification. cbn. rewrite Hp. cbn. rewrite Hv. cbn. repeat split. }
  destruct H2 as (Hs & Hin & Hl & Hst).
  destruct (@loading_with_no_run_is_for_good te E schedule s2 Hl Hin)
    as (H1 & H3 & H4 & H5).
  unfold play in *. rewrite H1, Hs.
  split; [reflexivity|]. split; [exact H3|].
  unfold page, buttonDisabled, buttonLabel.
  cbn [verifyDisabled verifyLabel pill]. rewrite H4.
  split; [reflexivity|]. split; [reflexivity|].
  rewrite Hst in H5. destruct H5 as [-> | ->]; cbn; tauto.
Qed.

Lemma page_stays_disabled_after_a_rejected_run_witness :
  let e := ErrorObj "invalid signature string" in
  let E := answering (inr degree) (inl e) (inr "c") (inr "0x00")
             (inr "0xabc1") (inr false) in
  let s := play nullTypeError E (mounted blankHeap 0)
             [Edit "{}"; Start; Start; Edit "{ }"; Start] in
  ("{}" <> EmptyString /\ env_parse E "{}" = inr degree /\ env_verify E degree = inl e) /\
  started s = 1 /\ verifyDisabled (page nullTypeError (world s)) = true.
Proof.
  intros e E s. split; [repeat split; discriminate|].
  pose proof (@page_stays_disabled_after_a_rejected_run nullTypeError E blankHeap 0
                "{}" degree e [Start; Edit "{ }"; Start]
                ltac:(discriminate) eq_refl eq_refl) as H.
  split; [exact (proj1 H) | exact (proj1 (proj2 (proj2 H)))].
Defined.

(** An edit does not cancel the run in flight.  A run is started on a
    credential object with an accepted signature; the input is edited
    while the controller resolution is awaited.  When the two promises
    have settled, the page shows the step log and the verdict of that
    run over the edited input; [vc] is still [null], as the edit has left
    it, so that the details block is not shown. *)
Theorem an_edit_does_not_cancel_the_run :
  forall te E h n text text' props sg canonical key c rv,
    text <> EmptyString ->
    env_parse E text = inr (JObj props) ->
    env_verify E (JObj props) = inr sg ->
    valid sg = true ->
    env_canonicalize E (JObj (without "proof" props)) = inr canonical ->
    env_hash E canonical = inr key ->
    let s := play te E (mounted h n)
               [Edit text; Start; Edit text';
                ControllerSettles 0 c; RevocationSettles 0 rv] in
    UI.vcInput (ui (world s)) = text' /\
    UI.vc (ui (world s)) = JNull /\
    UI.status (ui (world s)) = match completionAfter te rv with
                               | Fulfilled => verdictAfter te rv
                               | Rejected _ => Idle
                               end /\
    UI.isLoading (ui (world s)) = match completionAfter te rv with
                                  | Fulfilled => false
                                  | Rejected _ => true
                                  end /\
    shown (world s) = [signatureStep sg; controllerEnds sg c; revocationEnds te rv] /\
    inflight s = [] /\
    detailsShown (ui (world s)) = false /\
    stale 0 (history s) = false.
Proof.
  intros te E h n text text' props sg canonical key c rv Ht Hp Hv Hf Hc Hh s. subst s.
  unfold play. cbn [fold_left].
  unfold react at 5. unfold mounted, handleVcInputChange, resetState.
  cbn [world ui UI.isLoading UI.vcInput UI.vc UI.status UI.steps setUi heap next
       inflight started history].
  unfold react at 4. unfold buttonDisabled.
  cbn [world ui UI.isLoading UI.vcInput orb].
  destruct text as [|ch text]; [congruence|].
  unfold runVerification, controllerEnds, revocationEnds, verdictAfter, completionAfter,
    detailsShown, shown.
  cbn. rewrite Hp. cbn. rewrite Hv. cbn. rewrite Hf. cbn.
  heap_reads. cbn.
  destruct c as [ec|cc]; cbn; [|destruct (sameIdentity cc (recoveredAddress sg)); cbn].
  all: rewrite ?Hc; cbn; rewrite ?Hh; cbn.
  all: destruct rv as [er|[|]]; cbn; [destruct (messageOf te er); cbn| |].
  all: heap_reads; cbn; repeat split.
Qed.

Lemma an_edit_does_not_cancel_the_run_witness :
  let E := parsesOnly "{}" degree (signedBy "0xAbC1") in
  let s := play nullTypeError E (mounted blankHeap 0)
             [Edit "{}"; Start; Edit "{not json";
              ControllerSettles 0 (inr "0xabc1"); RevocationSettles 0 (inr false)] in
  ("{}" <> EmptyString /\
   env_parse E "{}" = inr degree /\
   env_verify E degree = inr (signedBy "0xAbC1") /\
   valid (signedBy "0xAbC1") = true /\
   env_canonicalize E (JObj [("issuer", JStr "did:ethr:0xAbC1");
                             ("credentialSubject", JObj [("id", JStr "did:ethr:0x01")])])
     = inr "{canonical}" /\
   env_hash E "{canonical}" = inr "keccak:{canonical}") /\
  UI.vcInput (ui (world s)) = "{not json" /\
  UI.status (ui (world s)) = Valid.
Proof.
  intros E s. split; [repeat split; discriminate|].
  pose proof (@an_edit_does_not_cancel_the_run nullTypeError E blankHeap 0
                "{}" "{not json" _ (signedBy "0xAbC1") _ _
                (inr "0xabc1") (inr false)
                ltac:(discriminate) eq_refl eq_refl eq_refl eq_refl eq_refl) as H.
  split; [exact (proj1 H) | exact (proj1 (proj2 (proj2 H)))].
Defined.
